(** * ESG keyword scorer and threshold classifier

    A shallow embedding of the scoring core of the repository:

    - [dataset_create.py]: [ESG_KEYWORDS] and [extract_features];
    - [label.py]: [total_esg] and [label_esg];
    - [tests/prediction_validator.py]: [esg_keywords],
      [predict_with_model], [_calculate_expected_esg_profile],
      [validate_prediction_accuracy] and the confidence analysis of
      [_generate_validation_report].

    Python values are modelled as follows.  An [int] is a [Z].  A [str] is a
    [string] whose characters are read as code points 0..255 (Basic Latin and
    Latin-1 Supplement), one [ascii] per code point; on that range
    [str.lower] acts character by character.  A [dict] with string keys is an
    insertion-ordered association list.  An exception is a value of [exn]
    carried by [result].  True division [/] of two ints is read in two ways:
    [truediv] is the exact quotient in [Q], used where rounding changes
    nothing that is stated; [Binary64.truediv] is the quotient rounded to the
    nearest binary64, ties to even, which is the float Python returns. *)

From Stdlib Require Import ZArith QArith Qminmax Bool List Finite Lia.
From Stdlib Require Import Strings.Ascii Strings.String.
Import ListNotations.

Open Scope string_scope.
Open Scope Z_scope.

(** ** Python built-ins used by the sources *)

Module Py.

Inductive exn : Type :=
| KeyError (key : string)
| ValueError
| ZeroDivisionError
| OverflowError.

Inductive result (A : Type) : Type :=
| Ok (a : A)
| Raise (e : exn).
Arguments Ok {A} a.
Arguments Raise {A} e.

Definition bind {A B : Type} (m : result A) (k : A -> result B) : result B :=
  match m with
  | Ok a => k a
  | Raise e => Raise e
  end.

(** [dict]: keys are kept in insertion order; assignment to a key that is
    present replaces its value in place. *)
Definition dict (V : Type) : Type := list (string * V).

Fixpoint getitem {V : Type} (d : dict V) (k : string) : result V :=
  match d with
  | [] => Raise (KeyError k)
  | (k', v) :: d' => if String.eqb k' k then Ok v else getitem d' k
  end.

Fixpoint setitem {V : Type} (d : dict V) (k : string) (v : V) : dict V :=
  match d with
  | [] => [(k, v)]
  | (k', v') :: d' =>
      if String.eqb k' k then (k', v) :: d' else (k', v') :: setitem d' k v
  end.

Definition items {V : Type} (d : dict V) : list (string * V) := d.
Definition values {V : Type} (d : dict V) : list V := map snd d.

(** [sum(xs)]: left to right from 0. *)
Definition sum (xs : list Z) : Z := fold_left Z.add xs 0.

(** [max(xs)] of a list; [ValueError] on the empty list. *)
Definition max (xs : list Z) : result Z :=
  match xs with
  | [] => Raise ValueError
  | x :: xs' => Ok (fold_left Z.max xs' x)
  end.

(** [a / b] on ints, as the exact quotient: the value before Python rounds
    it to binary64.  [Binary64.truediv] below is the rounded result. *)
Definition truediv (a b : Z) : result Q :=
  if b =? 0 then Raise ZeroDivisionError
  else Ok (inject_Z a / inject_Z b)%Q.

(** [min(x, y)] returns [x] unless [y < x]; this is [Qmin]. *)
Definition min (x y : Q) : Q := Qmin x y.

(** [str.lower] on code points 0..255: A-Z (65..90) and the Latin-1 capitals
    (192..222 except the multiplication sign 215) move up by 32; every
    other code point of the range is its own lower case. *)
Definition lower_char (c : ascii) : ascii :=
  let n := N_of_ascii c in
  if (((65 <=? n) && (n <=? 90))
      || ((192 <=? n) && (n <=? 222) && negb (n =? 215)))%N
  then ascii_of_N (n + 32)
  else c.

Fixpoint lower (s : string) : string :=
  match s with
  | EmptyString => EmptyString
  | String c s' => String (lower_char c) (lower s')
  end.

(** [s.count(sub)]: scan from the left; a match at the current position is
    counted and the scan resumes [len(sub)] characters further, otherwise it
    resumes one character further.  [skip] is the number of characters
    still to be passed over after the last match.  The empty [sub] matches
    at every position, the end included, so the count is [len(s) + 1]. *)
Fixpoint count_from (sub : string) (skip : nat) (s : string) : nat :=
  match s with
  | EmptyString =>
      match skip with
      | O => if prefix sub EmptyString then 1%nat else 0%nat
      | S _ => 0%nat
      end
  | String _ s' =>
      match skip with
      | S k => count_from sub k s'
      | O =>
          if prefix sub s
          then S (count_from sub (String.length sub - 1) s')
          else count_from sub 0 s'
      end
  end.

Definition count (s sub : string) : Z := Z.of_nat (count_from sub 0 s).

End Py.

Import Py.

Notation "x <- m ;; k" := (bind m (fun x => k))
  (at level 61, m at next level, right associativity).

(** ** dataset_create.py *)

Module DatasetCreate.

Definition ESG_KEYWORDS : dict (list string) :=
  [ ("environment",
      ["carbon"; "emission"; "renewable"; "energy"; "waste"; "climate"]);
    ("social", ["job"; "community"; "health"; "education"; "safety"]);
    ("governance",
      ["ethics"; "compliance"; "transparency"; "policy"; "audit"]) ].

(** [extract_features] reads the module-level keyword dict; [KW] is that
    dict. *)
Definition extract_features_in (KW : dict (list string)) (text : string)
  : result (dict Z) :=
  let text := lower text in
  env <- (ws <- getitem KW "environment" ;; Ok (sum (map (count text) ws))) ;;
  soc <- (ws <- getitem KW "social" ;; Ok (sum (map (count text) ws))) ;;
  gov <- (ws <- getitem KW "governance" ;; Ok (sum (map (count text) ws))) ;;
  Ok [("env_score", env); ("soc_score", soc); ("gov_score", gov)].

Definition extract_features : string -> result (dict Z) :=
  extract_features_in ESG_KEYWORDS.

End DatasetCreate.

(** ** label.py *)

Module Label.

(** One row of [df["total_esg"] = df["env_score"] + df["soc_score"] +
    df["gov_score"]].  pandas adds the columns as int64; the sum here is the
    unbounded one, which is the same as long as no addition leaves the int64
    range. *)
Definition total_esg (row : dict Z) : result Z :=
  e <- getitem row "env_score" ;;
  s <- getitem row "soc_score" ;;
  g <- getitem row "gov_score" ;;
  Ok (e + s + g).

Definition label_esg (score : Z) : string :=
  if score <? 200 then "Low"
  else if score <? 600 then "Medium"
  else "High".

(** One row of [df["total_esg"].apply(label_esg)]. *)
Definition sustainability_label (row : dict Z) : result string :=
  t <- total_esg row ;; Ok (label_esg t).

End Label.

(** ** tests/prediction_validator.py *)

Module Validator.

Definition esg_keywords : dict (list string) :=
  [ ("environment",
      ["renewable"; "solar"; "carbon"; "emission"; "sustainable"; "green";
       "climate"; "energy"; "waste"; "recycling"; "biodiversity";
       "pollution"]);
    ("social",
      ["community"; "jobs"; "employment"; "health"; "education"; "safety";
       "diversity"; "inclusion"; "human rights"; "workers"; "training";
       "welfare"]);
    ("governance",
      ["transparency"; "ethics"; "compliance"; "accountability"; "board";
       "governance"; "reporting"; "audit"; "integrity"; "policy";
       "oversight"]) ].

Record esg_scores_dict : Type := {
  Environmental : Z;
  Social : Z;
  Governance : Z
}.

(** The dict returned by [predict_with_model].  The normal return carries
    ['features'] and no ['error']; the [except] branch carries ['error']
    and no ['features']. *)
Record outcome : Type := {
  prediction : string;
  confidence : Q;
  esg_scores : esg_scores_dict;
  total_score : Z;
  features : option (dict Z);
  error : option exn
}.

(** The loop [for category, keywords in self.esg_keywords.items()]. *)
Definition keyword_features (KW : dict (list string)) (text_lower : string)
  : dict Z :=
  fold_left
    (fun feats (item : string * list string) =>
       let (category, keywords) := item in
       setitem feats (category ++ "_score")
               (sum (map (count text_lower) keywords)))
    (items KW) [].

(** The confidence computed from [scores]. *)
Definition confidence_of (scores : list Z) : result Q :=
  m <- max scores ;;
  if 0 <? m
  then q <- truediv m (sum scores) ;; Ok (min q 1)
  else Ok (1 # 10)%Q.

(** The body of the [try] block. *)
Definition predict_body (KW : dict (list string)) (business_text : string)
  : result outcome :=
  let text_lower := lower business_text in
  let features := keyword_features KW text_lower in
  let total_esg := sum (values features) in
  let features := setitem features "total_esg" total_esg in
  let rating :=
    if total_esg <? 200 then "Low"
    else if total_esg <? 600 then "Medium"
    else "High" in
  env <- getitem features "environment_score" ;;
  soc <- getitem features "social_score" ;;
  gov <- getitem features "governance_score" ;;
  confidence <- confidence_of [env; soc; gov] ;;
  env' <- getitem features "environment_score" ;;
  soc' <- getitem features "social_score" ;;
  gov' <- getitem features "governance_score" ;;
  Ok {| prediction := rating;
        confidence := confidence;
        esg_scores := {| Environmental := env'; Social := soc';
                         Governance := gov' |};
        total_score := total_esg;
        features := Some features;
        error := None |}.

(** [try: ... except Exception as e: ...]. *)
Definition predict_with_model_in (KW : dict (list string))
    (business_text : string) : outcome :=
  match predict_body KW business_text with
  | Ok r => r
  | Raise e =>
      {| prediction := "Error";
         confidence := 0;
         esg_scores :=
           {| Environmental := 0; Social := 0; Governance := 0 |};
         total_score := 0;
         features := None;
         error := Some e |}
  end.

Definition predict_with_model : string -> outcome :=
  predict_with_model_in esg_keywords.

End Validator.

Import DatasetCreate Label Validator.

(** ** The specification's notion of counting

    The specification counts, for a keyword, "the number of non-overlapping
    occurrences of the keyword substring within the text".  An occurrence is
    an offset at which the keyword sits in the text; a family of occurrences
    is non-overlapping when the stretches of text they cover are pairwise
    disjoint; the number of non-overlapping occurrences is the largest size
    of such a family. *)

Module Spec.

Definition occurs_at (sub s : string) (p : nat) : Prop :=
  exists pre post, s = pre ++ sub ++ post /\ String.length pre = p.

Definition non_overlapping (sub s : string) (ps : list nat) : Prop :=
  NoDup ps
  /\ (forall p, In p ps -> occurs_at sub s p)
  /\ (forall p q, In p ps -> In q ps -> p <> q ->
        (p + String.length sub <= q \/ q + String.length sub <= p)%nat).

Definition occurrences (sub s : string) (n : nat) : Prop :=
  (exists ps, non_overlapping sub s ps /\ List.length ps = n)
  /\ (forall ps, non_overlapping sub s ps -> (List.length ps <= n)%nat).

(** A category's count: the sum, over its keywords, of the keyword's number
    of non-overlapping occurrences in the text. *)
Definition category_count (keywords : list string) (text : string) (n : Z)
  : Prop :=
  exists ns,
    Forall2 (fun w k => occurrences w text k) keywords ns
    /\ n = Z.of_nat (list_sum ns).

(** No keyword of the index occurs anywhere in the text. *)
Definition no_keyword (KW : dict (list string)) (text : string) : Prop :=
  forall category ws w p,
    In (category, ws) KW -> In w ws -> ~ occurs_at w text p.

(** The three recognised categories. *)
Definition categories : list string :=
  ["environment"; "social"; "governance"].

End Spec.

Import Spec.

(** ** tests/prediction_validator.py: expected profiles and validation *)

Module Validation.

(** [int(x)] of a real: truncation toward zero. *)
Definition int (q : Q) : Z := Z.quot (Qnum q) (Z.pos (Qden q)).

(** The dict returned by [_calculate_expected_esg_profile]. *)
Module Profile.
Record t : Type := {
  esg_scores : dict Z;
  total_score : Z;
  expected_rating : string
}.
End Profile.

(** [for key in esg_counts: esg_counts[key] = int(esg_counts[key] *
    multiplier)].  The counts are ints and the multipliers are 1.5, 0.3 and
    1.0; the product is taken as the exact rational (for the counts a text
    can give, the integer part of the float product is the integer part of
    that rational). *)
Definition apply_multiplier (esg_counts : dict Z) (multiplier : Q)
  : result (dict Z) :=
  fold_left
    (fun acc key =>
       counts <- acc ;;
       v <- getitem counts key ;;
       Ok (setitem counts key (int (inject_Z v * multiplier))))
    (map fst esg_counts) (Ok esg_counts).

(** [_calculate_expected_esg_profile], reading [self.esg_keywords] as [KW]. *)
Definition calculate_expected_esg_profile_in (KW : dict (list string))
    (business_text bias : string) : result Profile.t :=
  let text_lower := lower business_text in
  let esg_counts := keyword_features KW text_lower in
  adjusted <-
    (if String.eqb bias "high_esg" then Ok (esg_counts, (3 # 2)%Q)
     else if String.eqb bias "low_esg" then Ok (esg_counts, (3 # 10)%Q)
     else if String.eqb bias "env_focused" then
       v <- getitem esg_counts "environment_score" ;;
       Ok (setitem esg_counts "environment_score" (v * 2), 1%Q)
     else if String.eqb bias "social_focused" then
       v <- getitem esg_counts "social_score" ;;
       Ok (setitem esg_counts "social_score" (v * 2), 1%Q)
     else Ok (esg_counts, 1%Q)) ;;
  esg_counts <- apply_multiplier (fst adjusted) (snd adjusted) ;;
  let total_score := sum (values esg_counts) in
  let expected_rating :=
    if total_score <? 200 then "Low"
    else if total_score <? 600 then "Medium"
    else "High" in
  Ok {| Profile.esg_scores := esg_counts;
        Profile.total_score := total_score;
        Profile.expected_rating := expected_rating |}.

Definition calculate_expected_esg_profile
  : string -> string -> result Profile.t :=
  calculate_expected_esg_profile_in esg_keywords.

(** A test scenario: the mock ones carry ['esg_bias'] and
    ['expected_profile'], the real-world ones carry ['expected_rating']. *)
Module Scenario.
Record t : Type := {
  id : string;
  business_idea : string;
  data_type : string;
  esg_bias : option string;
  expected_profile : option Profile.t;
  expected_rating : option string
}.
End Scenario.

(** One entry of [results['accuracy_by_type']]. *)
Module TypeStats.
Record t : Type := {
  correct : Z;
  total : Z
}.
End TypeStats.

(** One entry of [results['detailed_results']]. *)
Module Detailed.
Record t : Type := {
  scenario_id : string;
  data_type : string;
  business_idea : string;
  expected : string;
  predicted : string;
  correct : bool;
  confidence : Q;
  esg_scores : esg_scores_dict;
  total_score : Z
}.
End Detailed.

(** The [results] dict while the loop runs. *)
Module Results.
Record t : Type := {
  total_scenarios : Z;
  correct_predictions : Z;
  accuracy_by_type : dict TypeStats.t;
  detailed_results : list Detailed.t;
  confidence_stats : list Q
}.
End Results.

(** The [results] dict as returned, with the two entries added after the
    loop. *)
Module Report.
Record t : Type := {
  results : Results.t;
  overall_accuracy : Q;
  average_confidence : Q
}.
End Report.

(** The expected rating of a scenario. *)
Definition expected_of (scenario : Scenario.t) : string :=
  match Scenario.expected_profile scenario with
  | Some profile => Profile.expected_rating profile
  | None =>
      match Scenario.expected_rating scenario with
      | Some rating => rating
      | None => "Unknown"
      end
  end.

(** [s[:100]]. *)
Definition slice_to (n : nat) (s : string) : string := substring 0 n s.

(** The body of [for scenario in all_scenarios]. *)
Definition validate_step (acc : result Results.t) (scenario : Scenario.t)
  : result Results.t :=
  results <- acc ;;
  let prediction_result :=
    predict_with_model (Scenario.business_idea scenario) in
  let expected := expected_of scenario in
  let predicted := prediction prediction_result in
  let is_correct := String.eqb predicted expected in
  let correct_predictions :=
    if is_correct then Results.correct_predictions results + 1
    else Results.correct_predictions results in
  let detailed_result :=
    {| Detailed.scenario_id := Scenario.id scenario;
       Detailed.data_type := Scenario.data_type scenario;
       Detailed.business_idea :=
         slice_to 100 (Scenario.business_idea scenario) ++ "...";
       Detailed.expected := expected;
       Detailed.predicted := predicted;
       Detailed.correct := is_correct;
       Detailed.confidence := confidence prediction_result;
       Detailed.esg_scores := esg_scores prediction_result;
       Detailed.total_score := total_score prediction_result |} in
  let data_type := Scenario.data_type scenario in
  let by_type := Results.accuracy_by_type results in
  let by_type :=
    match getitem by_type data_type with
    | Ok _ => by_type
    | Raise _ =>
        setitem by_type data_type
                {| TypeStats.correct := 0; TypeStats.total := 0 |}
    end in
  stats <- getitem by_type data_type ;;
  let by_type :=
    setitem by_type data_type
            {| TypeStats.correct := TypeStats.correct stats;
               TypeStats.total := TypeStats.total stats + 1 |} in
  by_type <-
    (if is_correct then
       stats <- getitem by_type data_type ;;
       Ok (setitem by_type data_type
                   {| TypeStats.correct := TypeStats.correct stats + 1;
                      TypeStats.total := TypeStats.total stats |})
     else Ok by_type) ;;
  Ok {| Results.total_scenarios := Results.total_scenarios results;
        Results.correct_predictions := correct_predictions;
        Results.accuracy_by_type := by_type;
        Results.detailed_results :=
          (Results.detailed_results results ++ [detailed_result])%list;
        Results.confidence_stats :=
          (Results.confidence_stats results
           ++ [confidence prediction_result])%list |}.

(** [np.mean] of a non-empty list, as the exact quotient. *)
Definition mean (xs : list Q) : Q :=
  (fold_left Qplus xs 0 / inject_Z (Z.of_nat (List.length xs)))%Q.

(** [validate_prediction_accuracy], on [self.mock_data_scenarios] and
    [self.real_world_scenarios]; [None] is Python's [None].  The function
    also prints the report and keeps it in [self.test_results]; what is
    modelled is the value it returns. *)
Definition validate_prediction_accuracy
    (mock_data_scenarios real_world_scenarios : list Scenario.t)
  : result (option Report.t) :=
  let all_scenarios := (mock_data_scenarios ++ real_world_scenarios)%list in
  match all_scenarios with
  | [] => Ok None
  | _ :: _ =>
      let results :=
        {| Results.total_scenarios := Z.of_nat (List.length all_scenarios);
           Results.correct_predictions := 0;
           Results.accuracy_by_type := [];
           Results.detailed_results := [];
           Results.confidence_stats := [] |} in
      results <- fold_left validate_step all_scenarios (Ok results) ;;
      overall_accuracy <-
        truediv (Results.correct_predictions results)
                (Results.total_scenarios results) ;;
      Ok (Some {| Report.results := results;
                  Report.overall_accuracy := overall_accuracy;
                  Report.average_confidence :=
                    mean (Results.confidence_stats results) |})
  end.

(** The three counts printed under "Confidence Analysis" by
    [_generate_validation_report]: above 0.7, from 0.3 to 0.7, below 0.3. *)
Definition confidence_analysis (confidence_stats : list Q) : Z * Z * Z :=
  (sum (map (fun _ => 1)
            (filter (fun c => negb (Qle_bool c (7 # 10))) confidence_stats)),
   sum (map (fun _ => 1)
            (filter (fun c => Qle_bool (3 # 10) c && Qle_bool c (7 # 10))
                    confidence_stats)),
   sum (map (fun _ => 1)
            (filter (fun c => negb (Qle_bool (3 # 10) c)) confidence_stats))).

End Validation.

Import Validation.

(** ** Binary64 arithmetic

    Python floats are IEEE 754 binary64 numbers: 53 significant bits, and
    every finite one is an integer multiple of 2^-1074.  A float is
    represented here by the rational it denotes. *)

Module Binary64.

(** The integer nearest to [a / b], exact halves going to the even one. *)
Definition rne (a b : Z) : Z :=
  let q := a / b in
  let r := a mod b in
  if 2 * r <? b then q
  else if b <? 2 * r then q + 1
  else if Z.even q then q else q + 1.

Definition scale : Z := 2 ^ 1074.
Definition scale_pos : positive := (2 ^ 1074)%positive.

(** The binary64 nearest to [a / b] for [a >= 0] and [b > 0], as a multiple
    of 2^-1074, with no upper limit.  With [x = a / b * 2^1074], the grid
    step is [2^t] where [t] is 52 below the binary exponent of [x], and 0 for
    the subnormal numbers. *)
Definition round_scaled (a b : Z) : Z :=
  let A := a * scale in
  let t := Z.max (Z.log2 (A / b) - 52) 0 in
  rne A (b * 2 ^ t) * 2 ^ t.

(** The value of a float literal such as [0.1]. *)
Definition literal (q : Q) : Q :=
  Qmake (Z.sgn (Qnum q) * round_scaled (Z.abs (Qnum q)) (Z.pos (Qden q)))
        scale_pos.

(** [a / b] on ints: the correctly rounded quotient; [OverflowError] when it
    is too large for a float. *)
Definition truediv (a b : Z) : result Q :=
  if b =? 0 then Raise ZeroDivisionError
  else
    let r := round_scaled (Z.abs a) (Z.abs b) in
    if 2 ^ (1024 + 1074) <=? r then Raise OverflowError
    else Ok (Qmake (Z.sgn a * Z.sgn b * r) scale_pos).

(** The confidence computed from [scores], in binary64; 1.0 is the
    rational 1. *)
Definition confidence_of (scores : list Z) : result Q :=
  m <- max scores ;;
  if 0 <? m
  then q <- truediv m (sum scores) ;; Ok (min q 1)
  else Ok (literal (1 # 10)).

(** The value that the [try] block of [predict_with_model] computes for
    ['confidence'], in binary64. *)
Definition predict_confidence_in (KW : dict (list string))
    (business_text : string) : result Q :=
  let text_lower := lower business_text in
  let features := keyword_features KW text_lower in
  let total_esg := sum (values features) in
  let features := setitem features "total_esg" total_esg in
  env <- getitem features "environment_score" ;;
  soc <- getitem features "social_score" ;;
  gov <- getitem features "governance_score" ;;
  confidence_of [env; soc; gov].

Definition predict_confidence : string -> result Q :=
  predict_confidence_in esg_keywords.

(** The binary64 nearest to 1/3, 0.333333333333333314829616256247..., and
    the one nearest to 1/10, 0.100000000000000005551115123125.... *)
Definition third : Q := 6004799503160661 # 18014398509481984.
Definition tenth : Q := 3602879701896397 # 36028797018963968.

End Binary64.

(** Values that fit a pandas int64 column, and the value an int64 addition
    leaves when the exact sum does not fit. *)
Definition int64 (z : Z) : Prop := - 2 ^ 63 <= z < 2 ^ 63.
Definition wrap64 (z : Z) : Z := (z + 2 ^ 63) mod 2 ^ 64 - 2 ^ 63.

(** [label.py] on a row of int64 columns: the two additions of
    [df["env_score"] + df["soc_score"] + df["gov_score"]] wrap around. *)
Definition total_esg_int64 (row : dict Z) : result Z :=
  e <- getitem row "env_score" ;;
  s <- getitem row "soc_score" ;;
  g <- getitem row "gov_score" ;;
  Ok (wrap64 (wrap64 (e + s) + g)).

Definition sustainability_label_int64 (row : dict Z) : result string :=
  t <- total_esg_int64 row ;; Ok (label_esg t).

(** ** Auxiliary definitions *)

(** The keyword list stored under a category ([[]] when the key is absent). *)
Definition keywords_of (KW : dict (list string)) (category : string)
  : list string :=
  match getitem KW category with
  | Ok ws => ws
  | Raise _ => []
  end.

(** The rating computed inline by [predict_with_model]. *)
Definition rating_of (total_esg : Z) : string :=
  if total_esg <? 200 then "Low"
  else if total_esg <? 600 then "Medium"
  else "High".

(** Executable test that no keyword of the index is counted in the text. *)
Definition no_keyword_check (KW : dict (list string)) (text : string) : bool :=
  forallb (fun item : string * list string =>
             forallb (fun w => count text w =? 0) (snd item)) KW.

(** [s * n]. *)
Fixpoint repeat_str (s : string) (n : nat) : string :=
  match n with
  | O => ""
  | S k => s ++ repeat_str s k
  end.

(** A text with exactly [n] keyword occurrences for the validator's index. *)
Definition crafted (n : nat) : string := repeat_str "jobs" n.

(** Every keyword of an index, category after category. *)
Definition all_keywords (KW : dict (list string)) : list string :=
  List.concat (map snd KW).

(** The number of positions of the text at which the keyword sits. *)
Fixpoint starts (w s : string) : nat :=
  match s with
  | EmptyString => 0%nat
  | String _ s' => ((if prefix w s then 1 else 0) + starts w s')%nat
  end.

(** No keyword of the list is empty, and no keyword is a prefix of another
    one (so the list has no duplicates either). *)
Fixpoint prefix_free (ws : list string) : bool :=
  match ws with
  | [] => true
  | w :: ws' =>
      negb (prefix w "")
      && forallb (fun v => negb (prefix w v) && negb (prefix v w)) ws'
      && prefix_free ws'
  end.

(** The validator counts a scenario as correct. *)
Definition is_correct (scenario : Scenario.t) : bool :=
  String.eqb (prediction (predict_with_model (Scenario.business_idea scenario)))
             (expected_of scenario).

Definition of_type (data_type : string) (scenario : Scenario.t) : bool :=
  String.eqb (Scenario.data_type scenario) data_type.

(** How many elements of the list pass the test. *)
Definition count_if {A : Type} (f : A -> bool) (l : list A) : Z :=
  Z.of_nat (List.length (filter f l)).

(** The biases that [_calculate_expected_esg_profile] treats specially. *)
Definition special_bias (bias : string) : bool :=
  String.eqb bias "high_esg" || String.eqb bias "low_esg"
  || String.eqb bias "env_focused" || String.eqb bias "social_focused".

(** The per-type bookkeeping of one loop iteration, with the result of the
    comparison given. *)
Definition bump_type (by_type : dict TypeStats.t) (data_type : string)
    (is_correct : bool) : dict TypeStats.t :=
  let old :=
    match getitem by_type data_type with
    | Ok stats => stats
    | Raise _ => {| TypeStats.correct := 0; TypeStats.total := 0 |}
    end in
  setitem by_type data_type
          {| TypeStats.correct :=
               TypeStats.correct old + (if is_correct then 1 else 0);
             TypeStats.total := TypeStats.total old + 1 |}.


(** The profile with the given three scores. *)
Definition profile_of (e s g : Z) : Profile.t :=
  {| Profile.esg_scores :=
       [("environment_score", e); ("social_score", s);
        ("governance_score", g)];
     Profile.total_score := e + s + g;
     Profile.expected_rating := rating_of (e + s + g) |}.

(** The detailed result stored for a scenario. *)
Definition detail_of (scenario : Scenario.t) : Detailed.t :=
  let r := predict_with_model (Scenario.business_idea scenario) in
  {| Detailed.scenario_id := Scenario.id scenario;
     Detailed.data_type := Scenario.data_type scenario;
     Detailed.business_idea :=
       slice_to 100 (Scenario.business_idea scenario) ++ "...";
     Detailed.expected := expected_of scenario;
     Detailed.predicted := prediction r;
     Detailed.correct := is_correct scenario;
     Detailed.confidence := confidence r;
     Detailed.esg_scores := esg_scores r;
     Detailed.total_score := total_score r |}.

(** The per-type bookkeeping over a list of scenarios. *)
Definition bump_types (by_type : dict TypeStats.t) (l : list Scenario.t)
  : dict TypeStats.t :=
  fold_left
    (fun acc scenario =>
       bump_type acc (Scenario.data_type scenario) (is_correct scenario))
    l by_type.

(** The entry of a data type, or the zero entry when it has none yet. *)
Definition stats_or_zero (by_type : dict TypeStats.t) (data_type : string)
  : TypeStats.t :=
  match getitem by_type data_type with
  | Ok stats => stats
  | Raise _ => {| TypeStats.correct := 0; TypeStats.total := 0 |}
  end.

Definition has_key {V : Type} (d : dict V) (k : string) : bool :=
  match getitem d k with
  | Ok _ => true
  | Raise _ => false
  end.

(** The confidence that [predict_with_model] gives for a scenario. *)
Definition confidence_for (scenario : Scenario.t) : Q :=
  confidence (predict_with_model (Scenario.business_idea scenario)).

(** The report that [validate_prediction_accuracy] builds for a non-empty
    list of scenarios. *)
Definition report_of (all_scenarios : list Scenario.t) : Report.t :=
  {| Report.results :=
       {| Results.total_scenarios := Z.of_nat (List.length all_scenarios);
          Results.correct_predictions := count_if is_correct all_scenarios;
          Results.accuracy_by_type := bump_types [] all_scenarios;
          Results.detailed_results := map detail_of all_scenarios;
          Results.confidence_stats := map confidence_for all_scenarios |};
     Report.overall_accuracy :=
       (inject_Z (count_if is_correct all_scenarios)
        / inject_Z (Z.of_nat (List.length all_scenarios)))%Q;
     Report.average_confidence :=
       mean (map confidence_for all_scenarios) |}.

(** A real-world style scenario and a mock style scenario. *)
Definition real_scenario (text rating : string) : Scenario.t :=
  {| Scenario.id := "real_1";
     Scenario.business_idea := text;
     Scenario.data_type := "real_world";
     Scenario.esg_bias := None;
     Scenario.expected_profile := None;
     Scenario.expected_rating := Some rating |}.

Definition mock_scenario (text bias : string) (profile : Profile.t)
  : Scenario.t :=
  {| Scenario.id := "mock_1";
     Scenario.business_idea := text;
     Scenario.data_type := "mock";
     Scenario.esg_bias := Some bias;
     Scenario.expected_profile := Some profile;
     Scenario.expected_rating := None |}.

(** ** Occurrences and [prefix] *)

Lemma prefix_split (sub s : string) :
  prefix sub s = true <-> exists post, s = sub ++ post.
Proof.
  revert s; induction sub as [|a sub IH]; intros s; simpl.
  - split; [intros _; now exists s | now destruct s].
  - destruct s as [|b s].
    + split; [discriminate | intros [post H]; discriminate].
    + simpl. destruct (Ascii.ascii_dec a b) as [->|Hab].
      * rewrite IH. split; intros [post H]; exists post.
        -- now rewrite H.
        -- now injection H.
      * split; [discriminate | intros [post H]].
        injection H as H1 _. now elim Hab.
Qed.

Lemma occurs_at_0 (sub s : string) :
  occurs_at sub s 0 <-> prefix sub s = true.
Proof.
  rewrite prefix_split. split.
  - intros (pre & post & -> & Hlen).
    destruct pre; [now exists post | discriminate].
  - intros [post ->]. now exists "", post.
Qed.

Lemma occurs_at_S (sub : string) (c : ascii) (s : string) (p : nat) :
  occurs_at sub (String c s) (S p) <-> occurs_at sub s p.
Proof.
  split.
  - intros (pre & post & Hs & Hlen).
    destruct pre as [|a pre]; [discriminate|].
    simpl in Hs, Hlen. injection Hs as _ Hs. injection Hlen as Hlen.
    now exists pre, post.
  - intros (pre & post & -> & Hlen).
    exists (String c pre), post. simpl. now rewrite Hlen.
Qed.

Lemma occurs_at_empty (sub : string) (p : nat) :
  occurs_at sub "" p -> p = 0%nat /\ prefix sub "" = true.
Proof.
  intros (pre & post & Hs & Hlen).
  destruct pre; [|discriminate]. simpl in Hs, Hlen.
  split; [easy|]. apply prefix_split. now exists post.
Qed.

(** Moving a family of occurrences along with the text. *)

Lemma non_overlapping_nil (sub s : string) : non_overlapping sub s [].
Proof.
  repeat split; [constructor | intros p [] | intros p q []].
Qed.

Lemma non_overlapping_shift (sub : string) (c : ascii) (s : string) ps :
  non_overlapping sub s ps ->
  non_overlapping sub (String c s) (map S ps).
Proof.
  intros (Hnd & Hocc & Hdis). repeat split.
  - apply Injective_map_NoDup; [intros x y; lia | exact Hnd].
  - intros p Hp. apply in_map_iff in Hp as (p' & <- & Hp').
    apply occurs_at_S; auto.
  - intros p q Hp Hq Hpq.
    apply in_map_iff in Hp as (p' & <- & Hp').
    apply in_map_iff in Hq as (q' & <- & Hq').
    destruct (Hdis p' q' Hp' Hq'); lia.
Qed.

Lemma non_overlapping_unshift (sub : string) (c : ascii) (s : string) ps :
  non_overlapping sub (String c s) ps ->
  (forall p, In p ps -> (1 <= p)%nat) ->
  non_overlapping sub s (map Nat.pred ps).
Proof.
  intros (Hnd & Hocc & Hdis) Hpos. repeat split.
  - apply Injective_map_NoDup_in; [|exact Hnd].
    intros x y Hx Hy. apply Hpos in Hx, Hy. lia.
  - intros p Hp. apply in_map_iff in Hp as (p' & <- & Hp').
    apply (occurs_at_S sub c). specialize (Hpos _ Hp').
    replace (S (Nat.pred p')) with p' by lia. auto.
  - intros p q Hp Hq Hpq.
    apply in_map_iff in Hp as (p' & <- & Hp').
    apply in_map_iff in Hq as (q' & <- & Hq').
    pose proof (Hpos _ Hp'). pose proof (Hpos _ Hq').
    destruct (Hdis p' q' Hp' Hq'); lia.
Qed.

(** A duplicate-free list in which at most one value fails a test is at most
    one longer than its part that passes. *)
Lemma length_filter_but_one (f : nat -> bool) (l : list nat) :
  NoDup l ->
  (forall p q, In p l -> In q l -> f p = false -> f q = false -> p = q) ->
  (List.length l <= S (List.length (filter f l)))%nat.
Proof.
  induction l as [|a l IH]; intros Hnd Hone; simpl; [lia|].
  inversion Hnd as [|? ? Hnotin Hnd']; subst.
  destruct (f a) eqn:Hfa; simpl.
  - apply le_n_S, IH; [exact Hnd'|].
    intros p q Hp Hq; apply Hone; now right.
  - enough (filter f l = l) as -> by lia.
    apply forallb_filter_id, forallb_forall. intros x Hx.
    destruct (f x) eqn:Hfx; [reflexivity|].
    elim Hnotin. rewrite (Hone a x); auto; [now left | now right].
Qed.

(** ** [str.count] is the number of non-overlapping occurrences *)

Section Count.

Variable sub : string.

(** The left-to-right scan exhibits a non-overlapping family of its own
    size, all of whose members lie at or after the resumption point. *)
Lemma count_from_attained (s : string) :
  forall skip, exists ps,
    non_overlapping sub s ps
    /\ (forall p, In p ps -> (skip <= p)%nat)
    /\ List.length ps = count_from sub skip s.
Proof.
  induction s as [|c s IH]; intros skip.
  - destruct skip as [|k]; cbn [count_from].
    + destruct (prefix sub "") eqn:Hpre.
      * exists [0%nat]. repeat split.
        -- repeat constructor. intros [].
        -- intros p [<-|[]]. now apply occurs_at_0.
        -- intros p q [<-|[]] [<-|[]] H. now elim H.
        -- intros p [<-|[]]. lia.
      * exists []. split; [apply non_overlapping_nil|].
        split; [intros p []|reflexivity].
    + exists []. split; [apply non_overlapping_nil|].
      split; [intros p []|reflexivity].
  - destruct skip as [|k].
    + cbn [count_from]. destruct (prefix sub (String c s)) eqn:Hpre.
      * destruct (IH (String.length sub - 1)%nat) as (ps & Hno & Hlo & Hlen).
        pose proof (non_overlapping_shift sub c s ps Hno)
          as (Hnd & Hocc & Hdis).
        assert (Hfar : forall q, In q (map S ps) ->
                         (0 + String.length sub <= q /\ 0 <> q)%nat).
        { intros q Hq. apply in_map_iff in Hq as (q' & <- & Hq').
          apply Hlo in Hq'. lia. }
        exists (0%nat :: map S ps). repeat split.
        -- constructor; [|exact Hnd].
           intros H0. apply Hfar in H0. lia.
        -- intros p [<-|Hp]; [now apply occurs_at_0 | auto].
        -- intros p q [<-|Hp] [<-|Hq] Hpq.
           ++ now elim Hpq.
           ++ left. now apply Hfar.
           ++ right. now apply Hfar.
           ++ auto.
        -- intros p _. lia.
        -- simpl. now rewrite length_map, Hlen.
      * destruct (IH 0%nat) as (ps & Hno & _ & Hlen).
        exists (map S ps). split; [now apply non_overlapping_shift|].
        split; [intros p _; lia | now rewrite length_map].
    + cbn [count_from].
      destruct (IH k) as (ps & Hno & Hlo & Hlen).
      exists (map S ps). split; [now apply non_overlapping_shift|].
      split; [|now rewrite length_map].
      intros p Hp. apply in_map_iff in Hp as (p' & <- & Hp').
      apply Hlo in Hp'. lia.
Qed.

(** No non-overlapping family lying at or after the resumption point is
    larger than what the scan counts. *)
Lemma count_from_bound (s : string) :
  forall skip ps,
    non_overlapping sub s ps ->
    (forall p, In p ps -> (skip <= p)%nat) ->
    (List.length ps <= count_from sub skip s)%nat.
Proof.
  induction s as [|c s IH]; intros skip ps Hno Hlo.
  - destruct Hno as (Hnd & Hocc & _).
    assert (Hall : forall p, In p ps ->
              skip = 0%nat /\ p = 0%nat /\ prefix sub "" = true).
    { intros p Hp. destruct (occurs_at_empty sub p (Hocc p Hp)) as [-> Hpre].
      apply Hlo in Hp. repeat split; [lia | exact Hpre]. }
    destruct ps as [|p ps]; [simpl; lia|].
    destruct (Hall p (or_introl eq_refl)) as (-> & -> & Hpre).
    cbn [count_from]. rewrite Hpre.
    destruct ps as [|q ps]; [simpl; lia|].
    destruct (Hall q (or_intror (or_introl eq_refl))) as (_ & -> & _).
    inversion Hnd as [|? ? Hnotin _]; subst. elim Hnotin. now left.
  - destruct skip as [|k].
    + cbn [count_from]. destruct (prefix sub (String c s)) eqn:Hpre.
      * set (m := Nat.max (String.length sub) 1).
        set (far := fun p => (m <=? p)%nat).
        pose proof Hno as (Hnd & Hocc & Hdis).
        assert (Hone : (List.length ps
                        <= S (List.length (filter far ps)))%nat).
        { apply length_filter_but_one; [exact Hnd|].
          intros p q Hp Hq Hfp Hfq. unfold far in Hfp, Hfq.
          apply Nat.leb_gt in Hfp, Hfq.
          destruct (Nat.eq_dec p q) as [|Hpq]; [assumption|].
          destruct (Hdis p q Hp Hq Hpq); lia. }
        assert (Hfar : forall p, In p (filter far ps) ->
                         In p ps /\ (m <= p)%nat).
        { intros p Hp. apply filter_In in Hp as [Hp Hf].
          split; [exact Hp | now apply Nat.leb_le]. }
        assert (Hno' : non_overlapping sub (String c s) (filter far ps)).
        { repeat split.
          - now apply NoDup_filter.
          - intros p Hp. apply Hocc, Hfar, Hp.
          - intros p q Hp Hq. apply Hdis; now apply Hfar. }
        apply non_overlapping_unshift in Hno'.
        2:{ intros p Hp. apply Hfar in Hp. lia. }
        apply IH with (skip := (String.length sub - 1)%nat) in Hno'.
        -- rewrite length_map in Hno'. lia.
        -- intros p Hp. apply in_map_iff in Hp as (p' & <- & Hp').
           apply Hfar in Hp'. lia.
      * assert (Hpos : forall p, In p ps -> (1 <= p)%nat).
        { intros p Hp. destruct p; [|lia].
          destruct Hno as (_ & Hocc & _).
          apply Hocc, occurs_at_0 in Hp. congruence. }
        apply non_overlapping_unshift in Hno; [|exact Hpos].
        apply IH with (skip := 0%nat) in Hno.
        -- now rewrite length_map in Hno.
        -- intros p _. lia.
    + cbn [count_from].
      assert (Hpos : forall p, In p ps -> (1 <= p)%nat).
      { intros p Hp. apply Hlo in Hp. lia. }
      apply non_overlapping_unshift in Hno; [|exact Hpos].
      apply IH with (skip := k) in Hno.
      * now rewrite length_map in Hno.
      * intros p Hp. apply in_map_iff in Hp as (p' & <- & Hp').
        apply Hlo in Hp'. lia.
Qed.

Lemma count_from_occurrences (s : string) :
  occurrences sub s (count_from sub 0 s).
Proof.
  split.
  - destruct (count_from_attained s 0) as (ps & Hno & _ & Hlen).
    now exists ps.
  - intros ps Hno. apply count_from_bound; [exact Hno|].
    intros p _. lia.
Qed.

End Count.

(** ** Sums of counts *)

Lemma fold_add_from (xs : list Z) (a : Z) :
  fold_left Z.add xs a = a + sum xs.
Proof.
  unfold sum. revert a. induction xs as [|x xs IH]; intros a; simpl.
  - lia.
  - rewrite (IH (a + x)), (IH x). lia.
Qed.

Lemma sum_cons (x : Z) (xs : list Z) : sum (x :: xs) = x + sum xs.
Proof. unfold sum at 1. simpl. apply fold_add_from. Qed.

Lemma sum_counts (t : string) (ws : list string) :
  sum (map (count t) ws)
  = Z.of_nat (list_sum (map (fun w => count_from w 0 t) ws)).
Proof.
  induction ws as [|w ws IH]; [reflexivity|].
  cbn [map]. rewrite sum_cons, IH. unfold count, list_sum.
  cbn [fold_right]. lia.
Qed.

Lemma sum_counts_nonneg (t : string) (ws : list string) :
  0 <= sum (map (count t) ws).
Proof. rewrite sum_counts. lia. Qed.

Lemma sum_counts_spec (t : string) (ws : list string) :
  category_count ws t (sum (map (count t) ws)).
Proof.
  exists (map (fun w => count_from w 0 t) ws). split.
  - induction ws as [|w ws IH]; constructor; [|exact IH].
    apply count_from_occurrences.
  - apply sum_counts.
Qed.

(** A keyword that occurs nowhere is counted zero times, and conversely. *)
Lemma count_zero_iff (t w : string) :
  count t w = 0 <-> forall p, ~ occurs_at w t p.
Proof.
  unfold count. split.
  - intros H0 p Hp.
    assert (Hno : non_overlapping w t [p]).
    { repeat split.
      - repeat constructor. intros [].
      - intros q [<-|[]]. exact Hp.
      - intros q r [<-|[]] [<-|[]] H. now elim H. }
    apply (count_from_bound w t 0%nat) in Hno; [simpl in Hno; lia|].
    intros q _. lia.
  - intros Hnone.
    destruct (count_from_attained w t 0) as (ps & (_ & Hocc & _) & _ & Hlen).
    destruct ps as [|p ps]; [simpl in Hlen; lia|].
    elim (Hnone p). apply Hocc. now left.
Qed.

Lemma sum_counts_zero (t : string) (ws : list string) :
  (forall w p, In w ws -> ~ occurs_at w t p) ->
  sum (map (count t) ws) = 0.
Proof.
  induction ws as [|w ws IH]; intros Hnone; [reflexivity|].
  cbn [map]. rewrite sum_cons, IH.
  - assert (count t w = 0) as ->; [|reflexivity].
    apply count_zero_iff. intros p. apply Hnone. now left.
  - intros w' p Hw'. apply Hnone. now right.
Qed.

(** ** [str.lower] *)

Lemma lower_char_idempotent (c : ascii) :
  lower_char (lower_char c) = lower_char c.
Proof.
  destruct c as [[] [] [] [] [] [] [] []]; reflexivity.
Qed.

Lemma lower_idempotent (s : string) : lower (lower s) = lower s.
Proof.
  induction s as [|c s IH]; simpl; [reflexivity|].
  now rewrite lower_char_idempotent, IH.
Qed.

(** ** The two scorers in closed form *)

Lemma extract_features_closed (text : string) :
  let t := lower text in
  extract_features text
  = Ok [("env_score",
          sum (map (count t) (keywords_of ESG_KEYWORDS "environment")));
        ("soc_score", sum (map (count t) (keywords_of ESG_KEYWORDS "social")));
        ("gov_score",
          sum (map (count t) (keywords_of ESG_KEYWORDS "governance")))].
Proof. reflexivity. Qed.

(** ** The dominance ratio *)

Lemma dominance_bounds (m t : Z) :
  0 < t -> m <= t -> t <= 3 * m ->
  ((1 # 3) <= inject_Z m / inject_Z t /\ inject_Z m / inject_Z t <= 1)%Q.
Proof.
  intros Ht Hmt Htm.
  assert (Hpos : (0 < inject_Z t)%Q) by (unfold Qlt; simpl; lia).
  split.
  - apply Qle_shift_div_l; [exact Hpos|].
    unfold Qle, Qmult, inject_Z; cbn [Qnum Qden]. lia.
  - apply Qle_shift_div_r; [exact Hpos|].
    unfold Qle, Qmult, inject_Z; cbn [Qnum Qden]. lia.
Qed.

Lemma sum3 (e s g : Z) : sum [e; s; g] = e + s + g.
Proof. reflexivity. Qed.

(** The two branches of [confidence_of] on non-negative counts: the guard
    [max(scores) > 0] is the guard [total > 0]. *)
Lemma confidence_of_cases (e s g : Z) :
  0 <= e -> 0 <= s -> 0 <= g ->
  (e + s + g = 0 /\ confidence_of [e; s; g] = Ok (1 # 10)%Q)
  \/ (0 < e + s + g
      /\ confidence_of [e; s; g]
         = Ok (Qmin (inject_Z (Z.max (Z.max e s) g) / inject_Z (e + s + g)) 1)
      /\ truediv (Z.max (Z.max e s) g) (e + s + g)
         = Ok (inject_Z (Z.max (Z.max e s) g) / inject_Z (e + s + g))%Q).
Proof.
  intros He Hs Hg. unfold confidence_of, max, bind. cbn [fold_left].
  rewrite sum3. unfold truediv, min.
  destruct (0 <? Z.max (Z.max e s) g) eqn:Hm.
  - apply Z.ltb_lt in Hm. right.
    assert (Ht : 0 < e + s + g) by lia.
    destruct (e + s + g =? 0) eqn:H0; [apply Z.eqb_eq in H0; lia|].
    repeat split. exact Ht.
  - apply Z.ltb_ge in Hm. left. split; [lia | reflexivity].
Qed.

(** ** [predict_with_model] in closed form *)

Lemma keyword_features_closed (t : string) :
  keyword_features esg_keywords t
  = [("environment_score",
       sum (map (count t) (keywords_of esg_keywords "environment")));
     ("social_score", sum (map (count t) (keywords_of esg_keywords "social")));
     ("governance_score",
       sum (map (count t) (keywords_of esg_keywords "governance")))].
Proof. reflexivity. Qed.

Lemma predict_body_of_features (KW : dict (list string)) (text : string)
    (e s g : Z) :
  keyword_features KW (lower text)
  = [("environment_score", e); ("social_score", s); ("governance_score", g)] ->
  predict_body KW text
  = (c <- confidence_of [e; s; g] ;;
     Ok {| prediction := rating_of (e + s + g);
           confidence := c;
           esg_scores :=
             {| Environmental := e; Social := s; Governance := g |};
           total_score := e + s + g;
           features :=
             Some [("environment_score", e); ("social_score", s);
                   ("governance_score", g); ("total_esg", e + s + g)];
           error := None |}).
Proof.
  intros Hfeat. unfold predict_body. rewrite Hfeat. reflexivity.
Qed.

(** The [try] block never raises on non-negative scores. *)
Lemma predict_with_model_of_features (text : string) (e s g : Z) :
  keyword_features esg_keywords (lower text)
  = [("environment_score", e); ("social_score", s); ("governance_score", g)] ->
  0 <= e -> 0 <= s -> 0 <= g ->
  exists c,
    confidence_of [e; s; g] = Ok c
    /\ predict_with_model text
       = {| prediction := rating_of (e + s + g);
            confidence := c;
            esg_scores :=
              {| Environmental := e; Social := s; Governance := g |};
            total_score := e + s + g;
            features :=
              Some [("environment_score", e); ("social_score", s);
                    ("governance_score", g); ("total_esg", e + s + g)];
            error := None |}.
Proof.
  intros Hfeat He Hs Hg.
  pose proof (predict_body_of_features esg_keywords text e s g Hfeat) as Hbody.
  unfold predict_with_model, predict_with_model_in. rewrite Hbody.
  destruct (confidence_of_cases e s g He Hs Hg) as [[_ Hc]|(_ & Hc & _)];
    rewrite Hc; cbn [bind]; eexists; split; reflexivity.
Qed.

(** [predict_with_model] returns through its normal path, with the three
    category sums as scores. *)
Lemma predict_with_model_closed (text : string) :
  exists e s g c,
    e = sum (map (count (lower text)) (keywords_of esg_keywords "environment"))
    /\ s = sum (map (count (lower text)) (keywords_of esg_keywords "social"))
    /\ g = sum (map (count (lower text))
                    (keywords_of esg_keywords "governance"))
    /\ (0 <= e /\ 0 <= s /\ 0 <= g)
    /\ confidence_of [e; s; g] = Ok c
    /\ predict_with_model text
       = {| prediction := rating_of (e + s + g);
            confidence := c;
            esg_scores :=
              {| Environmental := e; Social := s; Governance := g |};
            total_score := e + s + g;
            features :=
              Some [("environment_score", e); ("social_score", s);
                    ("governance_score", g); ("total_esg", e + s + g)];
            error := None |}.
Proof.
  pose proof (sum_counts_nonneg (lower text)
                (keywords_of esg_keywords "environment")) as He.
  pose proof (sum_counts_nonneg (lower text)
                (keywords_of esg_keywords "social")) as Hs.
  pose proof (sum_counts_nonneg (lower text)
                (keywords_of esg_keywords "governance")) as Hg.
  destruct (predict_with_model_of_features text _ _ _
              (keyword_features_closed (lower text)) He Hs Hg)
    as (c & Hc & Hp).
  eexists _, _, _, c.
  split; [exact eq_refl|]. split; [exact eq_refl|]. split; [exact eq_refl|].
  split; [exact (conj He (conj Hs Hg))|].
  split; [exact Hc | exact Hp].
Qed.

(** ** Dict lookups *)

Lemma getitem_In {V : Type} (d : dict V) (k : string) (v : V) :
  getitem d k = Ok v -> In (k, v) d.
Proof.
  induction d as [|[k' v'] d IH]; simpl; [discriminate|].
  destruct (String.eqb_spec k' k) as [->|_].
  - intros [= ->]. now left.
  - intros H. right. auto.
Qed.

Lemma getitem_raise {V : Type} (d : dict V) (k : string) (e : exn) :
  getitem d k = Raise e -> e = KeyError k.
Proof.
  induction d as [|[k' v'] d IH]; simpl; [now intros [= <-]|].
  destruct (String.eqb k' k); [discriminate | exact IH].
Qed.

Lemma no_keyword_score (KW : dict (list string)) (t category : string) :
  no_keyword KW t ->
  sum (map (count t) (keywords_of KW category)) = 0.
Proof.
  intros Hnone. unfold keywords_of.
  destruct (getitem KW category) as [ws|e] eqn:Hget; [|reflexivity].
  apply sum_counts_zero. intros w p Hw.
  apply (Hnone category ws w p); [now apply getitem_In | exact Hw].
Qed.

Lemma no_keyword_check_sound (KW : dict (list string)) (t : string) :
  no_keyword_check KW t = true -> no_keyword KW t.
Proof.
  unfold no_keyword_check. rewrite forallb_forall.
  intros Hall category ws w p Hin Hw.
  specialize (Hall _ Hin). cbn [snd] in Hall.
  rewrite forallb_forall in Hall. specialize (Hall _ Hw).
  apply Z.eqb_eq in Hall. revert p. now apply count_zero_iff.
Qed.

Lemma rating_of_label_esg (total : Z) : rating_of total = label_esg total.
Proof. reflexivity. Qed.

Lemma label_esg_cases (score : Z) :
  (score < 200 /\ label_esg score = "Low")
  \/ (200 <= score < 600 /\ label_esg score = "Medium")
  \/ (600 <= score /\ label_esg score = "High").
Proof.
  unfold label_esg.
  destruct (Z.ltb_spec score 200); [now left|].
  destruct (Z.ltb_spec score 600); [right; left | right; right]; split;
    solve [lia | reflexivity].
Qed.

(** * The claims *)

(** C1.  The classifier maps a total to a rating by the two breakpoints 200
    and 600: below 200 the label is Low, from 200 up to 599 it is Medium, and
    from 600 on it is High; 199, 200, 599 and 600 fall as stated.  The rating
    computed inline by [predict_with_model] is [label_esg] of its total, and
    texts crafted to reach the totals 199, 200, 599 and 600 are rated Low,
    Medium, Medium and High. *)
Theorem label_esg_breakpoints (total : Z) :
  (total < 200 -> label_esg total = "Low")
  /\ (200 <= total < 600 -> label_esg total = "Medium")
  /\ (600 <= total -> label_esg total = "High")
  /\ label_esg 199 = "Low" /\ label_esg 200 = "Medium"
  /\ label_esg 599 = "Medium" /\ label_esg 600 = "High"
  /\ (forall text,
        prediction (predict_with_model text)
        = label_esg (total_score (predict_with_model text)))
  /\ (total_score (predict_with_model (crafted 199)) = 199
      /\ prediction (predict_with_model (crafted 199)) = "Low")
  /\ (total_score (predict_with_model (crafted 200)) = 200
      /\ prediction (predict_with_model (crafted 200)) = "Medium")
  /\ (total_score (predict_with_model (crafted 599)) = 599
      /\ prediction (predict_with_model (crafted 599)) = "Medium")
  /\ (total_score (predict_with_model (crafted 600)) = 600
      /\ prediction (predict_with_model (crafted 600)) = "High").
Proof.
  pose proof (label_esg_cases total) as Hc.
  split; [intros H; destruct Hc as [[_ Hl]|[[Hr _]|[Hr _]]]; [exact Hl|lia..]|].
  split; [intros H; destruct Hc as [[Hr _]|[[_ Hl]|[Hr _]]]; [lia|exact Hl|lia]|].
  split; [intros H; destruct Hc as [[Hr _]|[[Hr _]|[_ Hl]]]; [lia..|exact Hl]|].
  do 4 (split; [reflexivity|]).
  split.
  { intros text.
    destruct (predict_with_model_closed text)
      as (e & s & g & c & _ & _ & _ & _ & _ & ->).
    cbn [prediction total_score]. apply rating_of_label_esg. }
  split; [split; vm_compute; reflexivity|].
  split; [split; vm_compute; reflexivity|].
  split; [split; vm_compute; reflexivity|].
  split; vm_compute; reflexivity.
Qed.

Lemma label_esg_breakpoints_witness :
  label_esg 150 = "Low" /\ label_esg 350 = "Medium" /\ label_esg 700 = "High".
Proof.
  split; [apply (label_esg_breakpoints 150); lia|].
  split; [apply (label_esg_breakpoints 350); lia|].
  apply (label_esg_breakpoints 700); lia.
Defined.

(** C10.  [label_esg] is total over the integers: every integer, negative
    ones included, gets exactly one of the three labels, and every negative
    integer gets Low. *)
Theorem label_esg_total (score : Z) :
  (label_esg score = "Low" \/ label_esg score = "Medium"
   \/ label_esg score = "High")
  /\ (score < 0 -> label_esg score = "Low").
Proof.
  destruct (label_esg_cases score) as [[Hr Hl]|[[Hr Hl]|[Hr Hl]]];
    (split; [rewrite Hl; auto | intros Hneg; solve [exact Hl | lia]]).
Qed.

Lemma label_esg_total_witness : label_esg (-5) = "Low".
Proof. apply (label_esg_total (-5)). lia. Defined.

(** C2.  For every text, both scorers lower-case the text once and compute
    each category's count as the sum, over the category's keywords, of the
    number of non-overlapping occurrences of the keyword as a substring of
    the lower-cased text; matching is by substring, not by word: the text
    "jobseeker jobseeker" has social count 2 through the keyword "job". *)
Theorem scorer_counts_occurrences :
  (forall text, exists env soc gov,
      extract_features text
      = Ok [("env_score", env); ("soc_score", soc); ("gov_score", gov)]
      /\ category_count (keywords_of ESG_KEYWORDS "environment")
                        (lower text) env
      /\ category_count (keywords_of ESG_KEYWORDS "social") (lower text) soc
      /\ category_count (keywords_of ESG_KEYWORDS "governance")
                        (lower text) gov)
  /\ (forall text, exists env soc gov,
        esg_scores (predict_with_model text)
        = {| Environmental := env; Social := soc; Governance := gov |}
        /\ category_count (keywords_of esg_keywords "environment")
                          (lower text) env
        /\ category_count (keywords_of esg_keywords "social") (lower text) soc
        /\ category_count (keywords_of esg_keywords "governance")
                          (lower text) gov)
  /\ In "job" (keywords_of ESG_KEYWORDS "social")
  /\ occurrences "job" "jobseeker jobseeker" 2
  /\ count "jobseeker jobseeker" "job" = 2
  /\ extract_features "jobseeker jobseeker"
     = Ok [("env_score", 0); ("soc_score", 2); ("gov_score", 0)].
Proof.
  split.
  { intros text. eexists _, _, _.
    split; [apply extract_features_closed|].
    repeat split; apply sum_counts_spec. }
  split.
  { intros text.
    destruct (predict_with_model_closed text)
      as (e & s & g & c & -> & -> & -> & _ & _ & ->).
    eexists _, _, _. split; [reflexivity|].
    repeat split; apply sum_counts_spec. }
  split; [vm_compute; auto|].
  split; [exact (count_from_occurrences "job" "jobseeker jobseeker")|].
  split; vm_compute; reflexivity.
Qed.

(** C5.  Every score vector the scorer produces is additive: the total is
    the sum of the environment, social and governance counts, for every
    input text, in [predict_with_model] and in the [total_esg] column computed
    from [extract_features]. *)
Theorem total_is_sum_of_counts (text : string) :
  total_score (predict_with_model text)
  = Environmental (esg_scores (predict_with_model text))
    + Social (esg_scores (predict_with_model text))
    + Governance (esg_scores (predict_with_model text))
  /\ (exists feats,
        features (predict_with_model text) = Some feats
        /\ getitem feats "total_esg"
           = Ok (total_score (predict_with_model text)))
  /\ (exists row env soc gov,
        extract_features text = Ok row
        /\ getitem row "env_score" = Ok env
        /\ getitem row "soc_score" = Ok soc
        /\ getitem row "gov_score" = Ok gov
        /\ total_esg row = Ok (env + soc + gov)).
Proof.
  destruct (predict_with_model_closed text)
    as (e & s & g & c & _ & _ & _ & _ & _ & ->).
  split; [reflexivity|]. split.
  - eexists. split; reflexivity.
  - pose proof (extract_features_closed text) as Hrow. cbv zeta in Hrow.
    revert Hrow.
    generalize (sum (map (count (lower text))
                         (keywords_of ESG_KEYWORDS "environment"))) as env.
    generalize (sum (map (count (lower text))
                         (keywords_of ESG_KEYWORDS "social"))) as soc.
    generalize (sum (map (count (lower text))
                         (keywords_of ESG_KEYWORDS "governance"))) as gov.
    intros gov soc env Hrow.
    eexists _, env, soc, gov. split; [exact Hrow|].
    repeat split; reflexivity.
Qed.

(** C6.  Scoring is case-insensitive: a text and its lower-cased form get
    the same per-category counts (indeed the same result) from both scorers;
    "CARBON" and "carbon" score alike. *)
Theorem scoring_is_case_insensitive :
  (forall T, extract_features (lower T) = extract_features T)
  /\ (forall T, predict_with_model (lower T) = predict_with_model T)
  /\ lower "CARBON" = "carbon"
  /\ extract_features "CARBON" = extract_features "carbon"
  /\ esg_scores (predict_with_model "CARBON")
     = esg_scores (predict_with_model "carbon")
  /\ esg_scores (predict_with_model "CARBON")
     = {| Environmental := 1; Social := 0; Governance := 0 |}.
Proof.
  split.
  { intros T. unfold extract_features, extract_features_in.
    now rewrite lower_idempotent. }
  split.
  { intros T.
    unfold predict_with_model, predict_with_model_in, predict_body.
    now rewrite lower_idempotent. }
  repeat split; vm_compute; reflexivity.
Qed.

(** C8.  The source holds two different keyword-list variants for the same
    three categories: the dict of [dataset_create.py] and the dict of
    [prediction_validator.py] differ, in every category, and on the text
    "solar" the scorers built on them give different score vectors. *)
Theorem keyword_lists_differ :
  ESG_KEYWORDS <> esg_keywords
  /\ (forall category, In category categories ->
        keywords_of ESG_KEYWORDS category <> keywords_of esg_keywords category)
  /\ (In "solar" (keywords_of esg_keywords "environment")
      /\ ~ In "solar" (keywords_of ESG_KEYWORDS "environment"))
  /\ (exists text,
        extract_features_in ESG_KEYWORDS text
        <> extract_features_in esg_keywords text
        /\ esg_scores (predict_with_model_in ESG_KEYWORDS text)
           <> esg_scores (predict_with_model_in esg_keywords text)).
Proof.
  split; [discriminate|].
  split.
  { intros category [<-|[<-|[<-|[]]]]; vm_compute; discriminate. }
  split.
  { split; [vm_compute; auto|].
    vm_compute. intros H.
    repeat (destruct H as [H|H]; [discriminate|]). exact H. }
  exists "solar". split; vm_compute; discriminate.
Qed.

(** ** Confidence on non-negative counts *)

Lemma max3_bounds (e s g : Z) :
  0 <= e -> 0 <= s -> 0 <= g ->
  Z.max (Z.max e s) g <= e + s + g
  /\ e + s + g <= 3 * Z.max (Z.max e s) g.
Proof. lia. Qed.

Lemma confidence_of_range (e s g : Z) (c : Q) :
  0 <= e -> 0 <= s -> 0 <= g ->
  confidence_of [e; s; g] = Ok c ->
  (c = (1 # 10)%Q /\ e + s + g = 0)
  \/ (0 < e + s + g
      /\ (c == inject_Z (Z.max (Z.max e s) g) / inject_Z (e + s + g))%Q
      /\ ((1 # 3) <= c)%Q /\ (c <= 1)%Q).
Proof.
  intros He Hs Hg Hc.
  destruct (confidence_of_cases e s g He Hs Hg) as [[H0 Hc']|(Ht & Hc' & _)];
    rewrite Hc' in Hc; injection Hc as <-.
  - left. now split.
  - right. split; [exact Ht|].
    destruct (max3_bounds e s g He Hs Hg) as [Hle Hge].
    destruct (dominance_bounds _ _ Ht Hle Hge) as [Hlo Hhi].
    assert (Hmin : (Qmin (inject_Z (Z.max (Z.max e s) g)
                          / inject_Z (e + s + g)) 1
                    == inject_Z (Z.max (Z.max e s) g)
                       / inject_Z (e + s + g))%Q)
      by (apply Q.min_l; exact Hhi).
    split; [exact Hmin|]. rewrite Hmin. now split.
Qed.



(** C4.  Scoring the empty string raises nothing and gives the all-zero
    score vector: scores 0, 0, 0, total 0, rating Low, confidence 0.1.  No
    string input makes either scorer raise, and whenever no keyword occurs in
    the lower-cased text the result is that same all-zero outcome. *)
Theorem empty_and_keywordless_text :
  predict_with_model ""
  = {| prediction := "Low";
       confidence := (1 # 10)%Q;
       esg_scores := {| Environmental := 0; Social := 0; Governance := 0 |};
       total_score := 0;
       features :=
         Some [("environment_score", 0); ("social_score", 0);
               ("governance_score", 0); ("total_esg", 0)];
       error := None |}
  /\ extract_features ""
     = Ok [("env_score", 0); ("soc_score", 0); ("gov_score", 0)]
  /\ (forall text,
        error (predict_with_model text) = None
        /\ prediction (predict_with_model text) <> "Error"
        /\ exists row, extract_features text = Ok row)
  /\ (forall text,
        no_keyword esg_keywords (lower text) ->
        predict_with_model text = predict_with_model "")
  /\ (forall text,
        no_keyword ESG_KEYWORDS (lower text) ->
        extract_features text = extract_features "").
Proof.
  split; [vm_compute; reflexivity|].
  split; [vm_compute; reflexivity|].
  split.
  { intros text.
    destruct (predict_with_model_closed text)
      as (e & s & g & c & _ & _ & _ & _ & _ & ->).
    cbn [error prediction]. split; [reflexivity|]. split.
    - rewrite rating_of_label_esg.
      destruct (label_esg_cases (e + s + g)) as [[_ ->]|[[_ ->]|[_ ->]]];
        discriminate.
    - eexists. apply extract_features_closed. }
  split.
  { intros text Hnone.
    destruct (predict_with_model_closed text)
      as (e & s & g & c & He & Hs & Hg & _ & Hc & ->).
    rewrite (no_keyword_score _ _ _ Hnone) in He.
    rewrite (no_keyword_score _ _ _ Hnone) in Hs.
    rewrite (no_keyword_score _ _ _ Hnone) in Hg. subst e s g.
    vm_compute in Hc. injection Hc as <-. vm_compute. reflexivity. }
  intros text Hnone.
  rewrite extract_features_closed. cbv zeta.
  rewrite !(no_keyword_score _ _ _ Hnone). vm_compute. reflexivity.
Qed.

Lemma empty_and_keywordless_text_witness :
  predict_with_model "Quarterly Profit" = predict_with_model ""
  /\ extract_features "Quarterly Profit" = extract_features "".
Proof.
  destruct empty_and_keywordless_text as (_ & _ & _ & Hp & Hx).
  split; [apply Hp | apply Hx];
    apply no_keyword_check_sound; vm_compute; reflexivity.
Defined.



Lemma keyword_lists_differ_witness :
  keywords_of ESG_KEYWORDS "social" <> keywords_of esg_keywords "social".
Proof.
  destruct keyword_lists_differ as (_ & Hcat & _).
  apply Hcat. unfold categories. cbn [In]. auto.
Defined.

(** * Further properties of the scoring code *)

(** ** Text length bounds the scores *)

Lemma lower_length (s : string) : String.length (lower s) = String.length s.
Proof. induction s as [|c s IH]; simpl; [reflexivity | now rewrite IH]. Qed.

Lemma lower_app (a b : string) : lower (a ++ b) = lower a ++ lower b.
Proof. induction a as [|c a IH]; simpl; [reflexivity | now rewrite IH]. Qed.

Lemma count_from_le_starts (w s : string) :
  prefix w "" = false ->
  forall skip, (count_from w skip s <= starts w s)%nat.
Proof.
  intros Hne. induction s as [|c s IH]; intros skip.
  - destruct skip; cbn [count_from starts]; [rewrite Hne|]; lia.
  - destruct skip as [|k]; cbn [count_from starts].
    + destruct (prefix w (String c s)).
      * specialize (IH (String.length w - 1)%nat). lia.
      * specialize (IH 0%nat). lia.
    + specialize (IH k). lia.
Qed.

Lemma prefix_of_both (a b s : string) :
  prefix a s = true -> prefix b s = true ->
  prefix a b = true \/ prefix b a = true.
Proof.
  revert b s. induction a as [|x a IH]; intros b s Ha Hb.
  - left. now destruct b.
  - destruct b as [|y b]; [right; reflexivity|].
    destruct s as [|z s]; [discriminate|].
    simpl in Ha, Hb |- *.
    destruct (ascii_dec x z) as [->|]; [|discriminate].
    destruct (ascii_dec y z) as [->|]; [|discriminate].
    destruct (ascii_dec z z) as [_|Hzz]; [|now elim Hzz].
    eauto.
Qed.

Lemma prefix_free_hits (ws : list string) (s : string) :
  prefix_free ws = true ->
  (list_sum (map (fun w => if prefix w s then 1 else 0) ws) <= 1)%nat.
Proof.
  induction ws as [|w ws IH]; intros Hfree; simpl; [lia|].
  cbn [prefix_free] in Hfree.
  apply andb_true_iff in Hfree as [Hfree Hrest].
  apply andb_true_iff in Hfree as [_ Hall].
  specialize (IH Hrest).
  destruct (prefix w s) eqn:Hw; [|lia].
  enough (list_sum (map (fun v => if prefix v s then 1 else 0) ws) = 0)%nat
    by lia.
  clear IH Hrest. rewrite forallb_forall in Hall.
  induction ws as [|v ws IHws]; [reflexivity|]. simpl.
  rewrite IHws by (intros u Hu; apply Hall; now right).
  destruct (prefix v s) eqn:Hv; [|reflexivity].
  specialize (Hall v (or_introl eq_refl)).
  apply andb_true_iff in Hall as [H1 H2].
  destruct (prefix_of_both w v s Hw Hv) as [H|H]; rewrite H in *; discriminate.
Qed.

Lemma prefix_free_nonempty (ws : list string) (w : string) :
  prefix_free ws = true -> In w ws -> prefix w "" = false.
Proof.
  induction ws as [|v ws IH]; intros Hfree Hin; [destruct Hin|].
  cbn [prefix_free] in Hfree.
  apply andb_true_iff in Hfree as [Hfree Hrest].
  apply andb_true_iff in Hfree as [Hne _].
  destruct Hin as [<-|Hin]; [now apply negb_true_iff in Hne | auto].
Qed.

Lemma starts_sum_le_length (ws : list string) (s : string) :
  prefix_free ws = true ->
  (list_sum (map (fun w => starts w s) ws) <= String.length s)%nat.
Proof.
  intros Hfree. induction s as [|c s IH].
  - cbn [starts String.length].
    induction ws as [|w ws IHws]; [simpl; lia|].
    cbn [prefix_free] in Hfree.
    apply andb_true_iff in Hfree as [_ Hrest].
    specialize (IHws Hrest). simpl in IHws |- *. lia.
  - cbn [starts String.length].
    pose proof (prefix_free_hits ws (String c s) Hfree) as Hhit.
    assert (Hsplit :
      forall f g : string -> nat,
        list_sum (map (fun w => (f w + g w)%nat) ws)
        = (list_sum (map f ws) + list_sum (map g ws))%nat).
    { intros f g. clear. induction ws as [|w ws IHws]; simpl; lia. }
    rewrite Hsplit. lia.
Qed.

(** The counts of a prefix-free keyword list add up to at most the length of
    the text. *)
Lemma sum_counts_le_length (ws : list string) (t : string) :
  prefix_free ws = true ->
  sum (map (count t) ws) <= Z.of_nat (String.length t).
Proof.
  intros Hfree. rewrite sum_counts.
  pose proof (starts_sum_le_length ws t Hfree) as Hlen.
  enough (list_sum (map (fun w => count_from w 0 t) ws)
          <= list_sum (map (fun w => starts w t) ws))%nat by lia.
  assert (Hne : forall w, In w ws -> prefix w "" = false)
    by (intros w; now apply prefix_free_nonempty).
  clear Hfree Hlen. induction ws as [|w ws IH]; simpl; [lia|].
  pose proof (count_from_le_starts w t (Hne w (or_introl eq_refl)) 0%nat).
  assert (forall v, In v ws -> prefix v "" = false)
    by (intros v Hv; apply Hne; now right).
  specialize (IH H0). lia.
Qed.

Lemma sum_app (xs ys : list Z) : sum (xs ++ ys) = sum xs + sum ys.
Proof.
  induction xs as [|x xs IH]; [reflexivity|].
  cbn [app]. rewrite !sum_cons, IH. lia.
Qed.

Lemma total_le_length (KW : dict (list string)) (t : string) :
  prefix_free (all_keywords KW) = true ->
  sum (map (count t) (keywords_of KW "environment"))
  + sum (map (count t) (keywords_of KW "social"))
  + sum (map (count t) (keywords_of KW "governance"))
  = sum (map (count t) (all_keywords KW)) ->
  sum (map (count t) (keywords_of KW "environment"))
  + sum (map (count t) (keywords_of KW "social"))
  + sum (map (count t) (keywords_of KW "governance"))
  <= Z.of_nat (String.length t).
Proof.
  intros Hfree ->. now apply sum_counts_le_length.
Qed.

Lemma all_keywords_sum (KW : dict (list string)) (t : string) e s g :
  KW = [("environment", e); ("social", s); ("governance", g)] ->
  sum (map (count t) (keywords_of KW "environment"))
  + sum (map (count t) (keywords_of KW "social"))
  + sum (map (count t) (keywords_of KW "governance"))
  = sum (map (count t) (all_keywords KW)).
Proof.
  intros ->. unfold all_keywords, keywords_of.
  cbn [getitem String.eqb Ascii.eqb Bool.eqb map snd List.concat].
  rewrite app_nil_r, !map_app, !sum_app. lia.
Qed.

Lemma esg_keywords_prefix_free : prefix_free (all_keywords esg_keywords) = true.
Proof. vm_compute. reflexivity. Qed.

Lemma ESG_KEYWORDS_prefix_free : prefix_free (all_keywords ESG_KEYWORDS) = true.
Proof. vm_compute. reflexivity. Qed.

Lemma label_esg_monotone (a b : Z) :
  a <= b ->
  (label_esg b = "Low" -> label_esg a = "Low")
  /\ (label_esg a = "High" -> label_esg b = "High").
Proof.
  intros Hab.
  destruct (label_esg_cases a) as [[Ha ->]|[[Ha ->]|[Ha ->]]];
    destruct (label_esg_cases b) as [[Hb ->]|[[Hb ->]|[Hb ->]]];
    split; intros H; try reflexivity; try discriminate; lia.
Qed.

(** X1.  [predict_with_model] never finds more keyword occurrences than the
    text has characters, because no keyword of its index is a prefix of
    another one.  A text shorter than 200 characters is therefore rated Low,
    and a text rated High has at least 600 characters. *)
Theorem short_text_is_low (text : string) :
  0 <= total_score (predict_with_model text)
     <= Z.of_nat (String.length text)
  /\ ((String.length text < 200)%nat ->
      prediction (predict_with_model text) = "Low")
  /\ (prediction (predict_with_model text) = "High" ->
      (600 <= String.length text)%nat).
Proof.
  destruct (predict_with_model_closed text)
    as (e & s & g & c & He & Hs & Hg & (He0 & Hs0 & Hg0) & _ & ->).
  cbn [total_score prediction]. rewrite rating_of_label_esg.
  assert (Hlen : e + s + g <= Z.of_nat (String.length text)).
  { subst e s g. rewrite <- (lower_length text).
    apply total_le_length; [exact esg_keywords_prefix_free|].
    now eapply all_keywords_sum. }
  split; [lia|].
  destruct (label_esg_cases (e + s + g)) as [[Hr ->]|[[Hr ->]|[Hr ->]]];
    split; intros H; try reflexivity; try discriminate; lia.
Qed.

Lemma short_text_is_low_witness :
  prediction (predict_with_model "Green tech startup.") = "Low".
Proof.
  apply (short_text_is_low "Green tech startup."). simpl. lia.
Defined.

(** X2.  The same bound along [dataset_create.py] and [label.py]: the row
    that [extract_features] builds always has the three score columns, its
    [total_esg] is between 0 and the length of the text, and a text shorter
    than 200 characters gets the label Low. *)
Theorem short_document_is_low (text : string) :
  exists row total,
    extract_features text = Ok row
    /\ total_esg row = Ok total
    /\ sustainability_label row = Ok (label_esg total)
    /\ 0 <= total <= Z.of_nat (String.length text)
    /\ ((String.length text < 200)%nat ->
        sustainability_label row = Ok "Low").
Proof.
  pose proof (extract_features_closed text) as Hrow. cbv zeta in Hrow.
  pose proof (sum_counts_nonneg (lower text)
                (keywords_of ESG_KEYWORDS "environment")) as He.
  pose proof (sum_counts_nonneg (lower text)
                (keywords_of ESG_KEYWORDS "social")) as Hs.
  pose proof (sum_counts_nonneg (lower text)
                (keywords_of ESG_KEYWORDS "governance")) as Hg.
  assert (Hlen :
    sum (map (count (lower text)) (keywords_of ESG_KEYWORDS "environment"))
    + sum (map (count (lower text)) (keywords_of ESG_KEYWORDS "social"))
    + sum (map (count (lower text)) (keywords_of ESG_KEYWORDS "governance"))
    <= Z.of_nat (String.length text)).
  { rewrite <- (lower_length text).
    apply total_le_length; [exact ESG_KEYWORDS_prefix_free|].
    now eapply all_keywords_sum. }
  revert Hrow He Hs Hg Hlen.
  generalize (sum (map (count (lower text))
                       (keywords_of ESG_KEYWORDS "environment"))) as e.
  generalize (sum (map (count (lower text))
                       (keywords_of ESG_KEYWORDS "social"))) as s.
  generalize (sum (map (count (lower text))
                       (keywords_of ESG_KEYWORDS "governance"))) as g.
  intros g s e Hrow He Hs Hg Hlen.
  exists [("env_score", e); ("soc_score", s); ("gov_score", g)], (e + s + g).
  split; [exact Hrow|]. split; [reflexivity|]. split; [reflexivity|].
  split; [lia|].
  intros Hshort. unfold sustainability_label, total_esg. cbn.
  destruct (label_esg_cases (e + s + g)) as [[Hr ->]|[[Hr _]|[Hr _]]];
    [reflexivity | lia | lia].
Qed.

Lemma short_document_is_low_witness :
  exists row, extract_features "Carbon audit" = Ok row
              /\ sustainability_label row = Ok "Low".
Proof.
  destruct (short_document_is_low "Carbon audit")
    as (row & total & Hrow & _ & _ & _ & Hlow).
  exists row. split; [exact Hrow | apply Hlow; simpl; lia].
Defined.

(** ** Scores of concatenated texts and of nested keywords *)

Lemma string_app_assoc (a b c : string) : (a ++ b) ++ c = a ++ b ++ c.
Proof. induction a as [|x a IH]; simpl; [reflexivity | now rewrite IH]. Qed.

Lemma string_app_length (a b : string) :
  String.length (a ++ b) = (String.length a + String.length b)%nat.
Proof. induction a as [|x a IH]; simpl; [reflexivity | now rewrite IH]. Qed.

Lemma occurs_at_bound (w s : string) (p : nat) :
  occurs_at w s p -> (p + String.length w <= String.length s)%nat.
Proof.
  intros (pre & post & -> & <-). rewrite !string_app_length. lia.
Qed.

Lemma occurs_at_app_l (w a b : string) (p : nat) :
  occurs_at w a p -> occurs_at w (a ++ b) p.
Proof.
  intros (pre & post & -> & Hlen). exists pre, (post ++ b).
  split; [now rewrite !string_app_assoc | exact Hlen].
Qed.

Lemma occurs_at_app_r (w a b : string) (p : nat) :
  occurs_at w b p -> occurs_at w (a ++ b) (String.length a + p).
Proof.
  intros (pre & post & -> & Hlen). exists (a ++ pre), post.
  split; [now rewrite string_app_assoc|].
  rewrite string_app_length. lia.
Qed.

Lemma nonempty_length (w : string) :
  prefix w "" = false -> (1 <= String.length w)%nat.
Proof. destruct w; [discriminate | simpl; lia]. Qed.

(** Occurrences found in two texts are still there, and still disjoint, in
    their concatenation. *)
Lemma count_from_app (w a b : string) :
  prefix w "" = false ->
  (count_from w 0 a + count_from w 0 b <= count_from w 0 (a ++ b))%nat.
Proof.
  intros Hne. apply nonempty_length in Hne.
  destruct (count_from_attained w a 0) as (pa & (Hnda & Hoa & Hda) & _ & <-).
  destruct (count_from_attained w b 0) as (pb & (Hndb & Hob & Hdb) & _ & <-).
  rewrite <- (length_map (Nat.add (String.length a)) pb), <- length_app.
  apply count_from_bound; [|intros p _; lia].
  assert (Hleft : forall p, In p pa ->
                    (p + String.length w <= String.length a)%nat)
    by (intros p Hp; apply occurs_at_bound, Hoa, Hp).
  repeat split.
  - apply NoDup_app; [exact Hnda | |].
    + apply Injective_map_NoDup; [intros x y; lia | exact Hndb].
    + intros p Hp Hq. apply in_map_iff in Hq as (q & <- & _).
      apply Hleft in Hp. lia.
  - intros p Hp. apply in_app_or in Hp as [Hp|Hp].
    + apply occurs_at_app_l, Hoa, Hp.
    + apply in_map_iff in Hp as (q & <- & Hq).
      apply occurs_at_app_r, Hob, Hq.
  - intros p q Hp Hq Hpq.
    apply in_app_or in Hp as [Hp|Hp]; apply in_app_or in Hq as [Hq|Hq].
    + now apply Hda.
    + apply in_map_iff in Hq as (q' & <- & _). apply Hleft in Hp. lia.
    + apply in_map_iff in Hp as (p' & <- & _). apply Hleft in Hq. lia.
    + apply in_map_iff in Hp as (p' & <- & Hp').
      apply in_map_iff in Hq as (q' & <- & Hq').
      destruct (Hdb p' q' Hp' Hq'); lia.
Qed.

Lemma sum_counts_app (ws : list string) (a b : string) :
  (forall w, In w ws -> prefix w "" = false) ->
  sum (map (count a) ws) + sum (map (count b) ws)
  <= sum (map (count (a ++ b)) ws).
Proof.
  induction ws as [|w ws IH]; intros Hne; [reflexivity|].
  cbn [map]. rewrite !sum_cons.
  assert (Hw : count a w + count b w <= count (a ++ b) w).
  { pose proof (count_from_app w a b (Hne w (or_introl eq_refl))).
    unfold count. lia. }
  assert (Hrest : forall v, In v ws -> prefix v "" = false)
    by (intros v Hv; apply Hne; now right).
  specialize (IH Hrest). lia.
Qed.

(** A keyword that contains another one is never counted more often than
    the one it contains. *)
Lemma count_from_inner (inner outer pre post t : string) :
  outer = pre ++ inner ++ post ->
  (count_from outer 0 t <= count_from inner 0 t)%nat.
Proof.
  intros ->.
  destruct (count_from_attained (pre ++ inner ++ post) t 0)
    as (ps & (Hnd & Hocc & Hdis) & _ & <-).
  rewrite <- (length_map (Nat.add (String.length pre)) ps).
  apply count_from_bound; [|intros p _; lia].
  repeat split.
  - apply Injective_map_NoDup; [intros x y; lia | exact Hnd].
  - intros p Hp. apply in_map_iff in Hp as (q & <- & Hq).
    destruct (Hocc q Hq) as (l & r & -> & <-).
    exists (l ++ pre), (post ++ r). split.
    + now rewrite !string_app_assoc.
    + rewrite string_app_length. lia.
  - intros p q Hp Hq Hpq.
    apply in_map_iff in Hp as (p' & <- & Hp').
    apply in_map_iff in Hq as (q' & <- & Hq').
    assert (p' <> q') by (intros ->; now elim Hpq).
    pose proof (Hdis p' q' Hp' Hq' H) as Hd.
    rewrite !string_app_length in Hd. lia.
Qed.

Lemma count_le_sum (t w : string) (ws : list string) :
  In w ws -> count t w <= sum (map (count t) ws).
Proof.
  induction ws as [|v ws IH]; intros Hin; [destruct Hin|].
  cbn [map]. rewrite sum_cons.
  pose proof (sum_counts_nonneg t ws).
  assert (0 <= count t v) by (unfold count; lia).
  destruct Hin as [->|Hin]; [lia|].
  specialize (IH Hin). lia.
Qed.

Lemma keywords_of_In (KW : dict (list string)) (category w : string) :
  In w (keywords_of KW category) -> In w (all_keywords KW).
Proof.
  unfold keywords_of, all_keywords.
  destruct (getitem KW category) as [ws|e] eqn:Hget; [|intros []].
  intros Hw. apply getitem_In in Hget.
  apply in_concat. exists ws. split; [|exact Hw].
  apply in_map_iff. now exists (category, ws).
Qed.

Lemma esg_keywords_nonempty (category w : string) :
  In w (keywords_of esg_keywords category) -> prefix w "" = false.
Proof.
  intros Hw. apply (prefix_free_nonempty (all_keywords esg_keywords));
    [exact esg_keywords_prefix_free | now apply keywords_of_In in Hw].
Qed.

Lemma sum_counts_incl (t : string) (ws ws' : list string) :
  NoDup ws -> incl ws ws' ->
  sum (map (count t) ws) <= sum (map (count t) ws').
Proof.
  revert ws'. induction ws as [|w ws IH]; intros ws' Hnd Hincl.
  - apply sum_counts_nonneg.
  - inversion Hnd as [|? ? Hnotin Hnd']; subst.
    destruct (in_split w ws' (Hincl w (or_introl eq_refl)))
      as (l1 & l2 & ->).
    cbn [map]. rewrite map_app. cbn [map].
    rewrite sum_cons, sum_app, sum_cons.
    specialize (IH (l1 ++ l2)%list Hnd').
    rewrite map_app, sum_app in IH.
    enough (incl ws (l1 ++ l2)%list) by (specialize (IH H); lia).
    intros v Hv. specialize (Hincl v (or_intror Hv)).
    apply in_app_or in Hincl as [H|[->|H]];
      [apply in_or_app; now left | now elim Hnotin
      | apply in_or_app; now right].
Qed.

(** X3.  Joining two texts never lowers what [predict_with_model] finds:
    each category score and the total of the concatenation are at least the
    sums over the two parts, so the concatenation is rated High when a part
    is, and its parts are rated Low when it is. *)
Theorem concatenation_never_lowers (a b : string) :
  Environmental (esg_scores (predict_with_model a))
  + Environmental (esg_scores (predict_with_model b))
  <= Environmental (esg_scores (predict_with_model (a ++ b)))
  /\ Social (esg_scores (predict_with_model a))
     + Social (esg_scores (predict_with_model b))
     <= Social (esg_scores (predict_with_model (a ++ b)))
  /\ Governance (esg_scores (predict_with_model a))
     + Governance (esg_scores (predict_with_model b))
     <= Governance (esg_scores (predict_with_model (a ++ b)))
  /\ total_score (predict_with_model a) + total_score (predict_with_model b)
     <= total_score (predict_with_model (a ++ b))
  /\ (prediction (predict_with_model a) = "High"
      \/ prediction (predict_with_model b) = "High" ->
      prediction (predict_with_model (a ++ b)) = "High")
  /\ (prediction (predict_with_model (a ++ b)) = "Low" ->
      prediction (predict_with_model a) = "Low"
      /\ prediction (predict_with_model b) = "Low").
Proof.
  destruct (predict_with_model_closed a)
    as (ea & sa & ga & ca & Hea & Hsa & Hga & (? & ? & ?) & _ & ->).
  destruct (predict_with_model_closed b)
    as (eb & sb & gb & cb & Heb & Hsb & Hgb & (? & ? & ?) & _ & ->).
  destruct (predict_with_model_closed (a ++ b))
    as (e & s & g & c & He & Hs & Hg & _ & _ & ->).
  cbn [esg_scores Environmental Social Governance total_score prediction].
  rewrite lower_app in He, Hs, Hg.
  assert (Hle : ea + eb <= e /\ sa + sb <= s /\ ga + gb <= g).
  { subst. repeat split; apply sum_counts_app;
      intros w; apply esg_keywords_nonempty. }
  destruct Hle as (Hle & Hls & Hlg).
  do 3 (split; [assumption|]). split; [lia|].
  rewrite !rating_of_label_esg.
  destruct (label_esg_monotone (ea + sa + ga) (e + s + g)) as [Hla Hha];
    [lia|].
  destruct (label_esg_monotone (eb + sb + gb) (e + s + g)) as [Hlb Hhb];
    [lia|].
  split; [intros [Hh|Hh]; auto | intros Hl; split; auto].
Qed.

Lemma concatenation_never_lowers_witness :
  prediction (predict_with_model (crafted 600 ++ " and more")) = "High".
Proof.
  apply (concatenation_never_lowers (crafted 600) " and more").
  left. vm_compute. reflexivity.
Defined.

(** X4.  The social keyword "diversity" sits inside the environment keyword
    "biodiversity", so [predict_with_model] counts every "biodiversity" of a
    text in both categories: the environment score and the social score are
    each at least the number of its occurrences. *)
Theorem biodiversity_counts_twice (text : string) :
  In "biodiversity" (keywords_of esg_keywords "environment")
  /\ In "diversity" (keywords_of esg_keywords "social")
  /\ 0 <= count (lower text) "biodiversity"
     <= Environmental (esg_scores (predict_with_model text))
  /\ count (lower text) "biodiversity"
     <= Social (esg_scores (predict_with_model text))
  /\ 2 * count (lower text) "biodiversity"
     <= total_score (predict_with_model text).
Proof.
  assert (Hin1 : In "biodiversity" (keywords_of esg_keywords "environment"))
    by (vm_compute; tauto).
  assert (Hin2 : In "diversity" (keywords_of esg_keywords "social"))
    by (vm_compute; tauto).
  split; [exact Hin1|]. split; [exact Hin2|].
  destruct (predict_with_model_closed text)
    as (e & s & g & c & -> & -> & Hg & (_ & _ & Hg0) & _ & ->).
  cbn [esg_scores Environmental Social total_score].
  pose proof (count_le_sum (lower text) _ _ Hin1) as H1.
  pose proof (count_le_sum (lower text) _ _ Hin2) as H2.
  assert (Hinner : count (lower text) "biodiversity"
                   <= count (lower text) "diversity").
  { pose proof (count_from_inner "diversity" "biodiversity" "bio" ""
                  (lower text) eq_refl).
    unfold count. lia. }
  assert (0 <= count (lower text) "biodiversity") by (unfold count; lia).
  lia.
Qed.

(** X5.  Every environment and governance keyword of [dataset_create.py] is
    also one of [prediction_validator.py], so for every text the validator's
    environment and governance scores are at least those of
    [extract_features]; the social scores are not ordered either way
    ("job" against "jobs", "welfare"). *)
Theorem validator_scores_dominate (text : string) :
  (exists row env soc gov,
      extract_features text = Ok row
      /\ getitem row "env_score" = Ok env
      /\ getitem row "soc_score" = Ok soc
      /\ getitem row "gov_score" = Ok gov
      /\ env <= Environmental (esg_scores (predict_with_model text))
      /\ gov <= Governance (esg_scores (predict_with_model text)))
  /\ (extract_features "job"
      = Ok [("env_score", 0); ("soc_score", 1); ("gov_score", 0)]
      /\ Social (esg_scores (predict_with_model "job")) = 0)
  /\ (extract_features "welfare"
      = Ok [("env_score", 0); ("soc_score", 0); ("gov_score", 0)]
      /\ Social (esg_scores (predict_with_model "welfare")) = 1).
Proof.
  split.
  - assert (He : sum (map (count (lower text))
                          (keywords_of ESG_KEYWORDS "environment"))
                 <= sum (map (count (lower text))
                             (keywords_of esg_keywords "environment"))).
    { apply sum_counts_incl.
      - vm_compute. repeat constructor; cbn [In]; intuition discriminate.
      - intros w Hw. vm_compute in Hw |- *. tauto. }
    assert (Hg : sum (map (count (lower text))
                          (keywords_of ESG_KEYWORDS "governance"))
                 <= sum (map (count (lower text))
                             (keywords_of esg_keywords "governance"))).
    { apply sum_counts_incl.
      - vm_compute. repeat constructor; cbn [In]; intuition discriminate.
      - intros w Hw. vm_compute in Hw |- *. tauto. }
    destruct (predict_with_model_closed text)
      as (e & s & g & c & -> & _ & -> & _ & _ & ->).
    cbn [esg_scores Environmental Governance].
    eexists _, _, _, _. split; [apply extract_features_closed|].
    cbv zeta. do 3 (split; [reflexivity|]). split; assumption.
  - split; split; vm_compute; reflexivity.
Qed.

(** ** Expected profiles *)

Lemma int_times_one (v : Z) : int (inject_Z v * 1) = v.
Proof.
  unfold int, Qmult, inject_Z. cbn [Qnum Qden].
  rewrite Z.mul_1_r. apply Z.quot_1_r.
Qed.

Lemma int_times_ratio (v : Z) (n d : positive) :
  0 <= v -> int (inject_Z v * (Z.pos n # d)) = (Z.pos n * v) / Z.pos d.
Proof.
  intros Hv. unfold int, Qmult, inject_Z. cbn [Qnum Qden].
  rewrite Z.quot_div_nonneg by lia. f_equal. lia.
Qed.

Lemma profile_of_features (KW : dict (list string)) (text bias : string)
    (e s g : Z) :
  keyword_features KW (lower text)
  = [("environment_score", e); ("social_score", s); ("governance_score", g)] ->
  calculate_expected_esg_profile_in KW text bias
  = Ok (if String.eqb bias "high_esg" then
          profile_of (int (inject_Z e * (3 # 2)))
                     (int (inject_Z s * (3 # 2)))
                     (int (inject_Z g * (3 # 2)))
        else if String.eqb bias "low_esg" then
          profile_of (int (inject_Z e * (3 # 10)))
                     (int (inject_Z s * (3 # 10)))
                     (int (inject_Z g * (3 # 10)))
        else if String.eqb bias "env_focused" then
          profile_of (int (inject_Z (e * 2) * 1)) (int (inject_Z s * 1))
                     (int (inject_Z g * 1))
        else if String.eqb bias "social_focused" then
          profile_of (int (inject_Z e * 1)) (int (inject_Z (s * 2) * 1))
                     (int (inject_Z g * 1))
        else
          profile_of (int (inject_Z e * 1)) (int (inject_Z s * 1))
                     (int (inject_Z g * 1))).
Proof.
  intros Hfeat. unfold calculate_expected_esg_profile_in. rewrite Hfeat.
  destruct (String.eqb bias "high_esg"); [reflexivity|].
  destruct (String.eqb bias "low_esg"); [reflexivity|].
  destruct (String.eqb bias "env_focused"); [reflexivity|].
  destruct (String.eqb bias "social_focused"); reflexivity.
Qed.

(** The profile computed for a text, by bias, from the three counts that
    [predict_with_model] reports for the same text. *)
Lemma profile_closed (text bias : string) :
  let r := predict_with_model text in
  let e := Environmental (esg_scores r) in
  let s := Social (esg_scores r) in
  let g := Governance (esg_scores r) in
  (0 <= e /\ 0 <= s /\ 0 <= g)
  /\ total_score r = e + s + g
  /\ prediction r = rating_of (e + s + g)
  /\ calculate_expected_esg_profile text bias
     = Ok (if String.eqb bias "high_esg" then
             profile_of ((3 * e) / 2) ((3 * s) / 2) ((3 * g) / 2)
           else if String.eqb bias "low_esg" then
             profile_of ((3 * e) / 10) ((3 * s) / 10) ((3 * g) / 10)
           else if String.eqb bias "env_focused" then profile_of (e * 2) s g
           else if String.eqb bias "social_focused" then
             profile_of e (s * 2) g
           else profile_of e s g).
Proof.
  destruct (predict_with_model_closed text)
    as (e & s & g & c & He & Hs & Hg & (He0 & Hs0 & Hg0) & _ & ->).
  cbn [esg_scores Environmental Social Governance total_score prediction].
  cbv zeta. split; [auto|]. split; [reflexivity|]. split; [reflexivity|].
  pose proof (keyword_features_closed (lower text)) as Hfeat.
  rewrite <- He, <- Hs, <- Hg in Hfeat.
  unfold calculate_expected_esg_profile.
  rewrite (profile_of_features _ _ bias _ _ _ Hfeat).
  rewrite !int_times_one, !int_times_ratio by assumption. reflexivity.
Qed.

Lemma profile_of_cases (text bias : string) :
  exists e s g,
    calculate_expected_esg_profile text bias = Ok (profile_of e s g)
    /\ 0 <= e /\ 0 <= s /\ 0 <= g.
Proof.
  destruct (profile_closed text bias) as ((He & Hs & Hg) & _ & _ & ->).
  destruct (String.eqb bias "high_esg");
    [eexists _, _, _; split; [reflexivity|];
     repeat split; apply Z.div_pos; lia|].
  destruct (String.eqb bias "low_esg");
    [eexists _, _, _; split; [reflexivity|];
     repeat split; apply Z.div_pos; lia|].
  destruct (String.eqb bias "env_focused");
    [eexists _, _, _; split; [reflexivity|]; repeat split; lia|].
  destruct (String.eqb bias "social_focused");
    eexists _, _, _; (split; [reflexivity|]); repeat split; lia.
Qed.

(** X6.  [_calculate_expected_esg_profile] never raises, whatever the text
    and the bias string: it returns the three category scores, all
    non-negative, a total that is their sum, and an expected rating that is
    [label_esg] of that total. *)
Theorem expected_profile_invariants (text bias : string) :
  exists profile e s g,
    calculate_expected_esg_profile text bias = Ok profile
    /\ Profile.esg_scores profile
       = [("environment_score", e); ("social_score", s);
          ("governance_score", g)]
    /\ (0 <= e /\ 0 <= s /\ 0 <= g)
    /\ Profile.total_score profile = e + s + g
    /\ Profile.expected_rating profile
       = label_esg (Profile.total_score profile).
Proof.
  destruct (profile_of_cases text bias) as (e & s & g & Hp & He & Hs & Hg).
  exists (profile_of e s g), e, s, g.
  split; [exact Hp|]. split; [reflexivity|]. split; [auto|].
  split; reflexivity.
Qed.

(** X7.  For a bias other than high_esg, low_esg, env_focused and
    social_focused (the balanced one, or any unknown string), the expected
    profile is what [predict_with_model] computes for the same text: same
    scores, same total and an expected rating equal to the prediction. *)
Theorem unbiased_profile_matches_prediction (text bias : string) :
  special_bias bias = false ->
  exists profile,
    calculate_expected_esg_profile text bias = Ok profile
    /\ Profile.esg_scores profile
       = [("environment_score",
            Environmental (esg_scores (predict_with_model text)));
          ("social_score", Social (esg_scores (predict_with_model text)));
          ("governance_score",
            Governance (esg_scores (predict_with_model text)))]
    /\ Profile.total_score profile = total_score (predict_with_model text)
    /\ Profile.expected_rating profile
       = prediction (predict_with_model text).
Proof.
  intros Hbias. unfold special_bias in Hbias.
  apply orb_false_iff in Hbias as [Hbias H4].
  apply orb_false_iff in Hbias as [Hbias H3].
  apply orb_false_iff in Hbias as [H1 H2].
  destruct (profile_closed text bias) as (_ & Ht & Hr & ->).
  rewrite H1, H2, H3, H4. eexists. split; [reflexivity|].
  split; [reflexivity|]. split; [now rewrite Ht | now rewrite Hr].
Qed.

Lemma unbiased_profile_matches_prediction_witness :
  exists profile,
    calculate_expected_esg_profile "Solar jobs" "balanced" = Ok profile
    /\ Profile.expected_rating profile
       = prediction (predict_with_model "Solar jobs").
Proof.
  destruct (unbiased_profile_matches_prediction "Solar jobs" "balanced")
    as (profile & Hp & _ & _ & Hr); [reflexivity|].
  exists profile. split; assumption.
Defined.

(** X8.  The env_focused bias doubles the environment score and leaves the
    other two alone, the social_focused bias does so with the social score:
    the expected total exceeds the total of [predict_with_model] by exactly
    the environment (social) score. *)
Theorem focused_bias_doubles (text : string) :
  let r := predict_with_model text in
  (exists profile,
      calculate_expected_esg_profile text "env_focused" = Ok profile
      /\ Profile.esg_scores profile
         = [("environment_score", 2 * Environmental (esg_scores r));
            ("social_score", Social (esg_scores r));
            ("governance_score", Governance (esg_scores r))]
      /\ Profile.total_score profile
         = total_score r + Environmental (esg_scores r))
  /\ (exists profile,
        calculate_expected_esg_profile text "social_focused" = Ok profile
        /\ Profile.esg_scores profile
           = [("environment_score", Environmental (esg_scores r));
              ("social_score", 2 * Social (esg_scores r));
              ("governance_score", Governance (esg_scores r))]
        /\ Profile.total_score profile
           = total_score r + Social (esg_scores r)).
Proof.
  cbv zeta. split.
  - destruct (profile_closed text "env_focused") as (_ & Ht & _ & ->).
    cbn [String.eqb Ascii.eqb Bool.eqb]. eexists. split; [reflexivity|].
    cbn [profile_of Profile.esg_scores Profile.total_score].
    split; [f_equal; f_equal; lia | lia].
  - destruct (profile_closed text "social_focused") as (_ & Ht & _ & ->).
    cbn [String.eqb Ascii.eqb Bool.eqb]. eexists. split; [reflexivity|].
    cbn [profile_of Profile.esg_scores Profile.total_score].
    split; [do 3 f_equal; lia | lia].
Qed.

(** X9.  The high_esg bias scales every score by 3/2 and the low_esg bias by
    3/10, rounding down: the low_esg total is at most the total of
    [predict_with_model], which is at most the high_esg total, and the two
    biased totals stay within the rounding of three scores of 3/10 and 3/2
    of it. *)
Theorem scaled_bias_bounds (text : string) :
  let t := total_score (predict_with_model text) in
  exists low high,
    calculate_expected_esg_profile text "low_esg" = Ok low
    /\ calculate_expected_esg_profile text "high_esg" = Ok high
    /\ Profile.total_score low <= t <= Profile.total_score high
    /\ 3 * t - 27 <= 10 * Profile.total_score low <= 3 * t
    /\ 3 * t - 3 <= 2 * Profile.total_score high <= 3 * t.
Proof.
  cbv zeta.
  destruct (profile_closed text "low_esg") as ((He & Hs & Hg) & Ht & _ & Hl).
  destruct (profile_closed text "high_esg") as (_ & _ & _ & Hh).
  cbn [String.eqb Ascii.eqb Bool.eqb] in Hl, Hh.
  eexists _, _. split; [exact Hl|]. split; [exact Hh|].
  cbn [profile_of Profile.total_score]. rewrite Ht.
  revert He Hs Hg.
  generalize (Environmental (esg_scores (predict_with_model text))) as e.
  generalize (Social (esg_scores (predict_with_model text))) as s.
  generalize (Governance (esg_scores (predict_with_model text))) as g.
  intros g s e He Hs Hg.
  pose proof (Z.div_mod (3 * e) 2 ltac:(lia)).
  pose proof (Z.div_mod (3 * s) 2 ltac:(lia)).
  pose proof (Z.div_mod (3 * g) 2 ltac:(lia)).
  pose proof (Z.div_mod (3 * e) 10 ltac:(lia)).
  pose proof (Z.div_mod (3 * s) 10 ltac:(lia)).
  pose proof (Z.div_mod (3 * g) 10 ltac:(lia)).
  pose proof (Z.mod_pos_bound (3 * e) 2 ltac:(lia)).
  pose proof (Z.mod_pos_bound (3 * s) 2 ltac:(lia)).
  pose proof (Z.mod_pos_bound (3 * g) 2 ltac:(lia)).
  pose proof (Z.mod_pos_bound (3 * e) 10 ltac:(lia)).
  pose proof (Z.mod_pos_bound (3 * s) 10 ltac:(lia)).
  pose proof (Z.mod_pos_bound (3 * g) 10 ltac:(lia)).
  lia.
Qed.

(** ** The validation loop *)

Lemma getitem_setitem_same {V : Type} (d : dict V) (k : string) (v : V) :
  getitem (setitem d k v) k = Ok v.
Proof.
  induction d as [|[k' v'] d IH]; cbn [setitem getitem].
  - now rewrite String.eqb_refl.
  - destruct (String.eqb k' k) eqn:Hk; cbn [getitem]; rewrite Hk;
      [reflexivity | exact IH].
Qed.

Lemma getitem_setitem_other {V : Type} (d : dict V) (k k' : string) (v : V) :
  k <> k' -> getitem (setitem d k v) k' = getitem d k'.
Proof.
  intros Hne. induction d as [|[k0 v0] d IH]; cbn [setitem getitem].
  - destruct (String.eqb_spec k k'); [contradiction | reflexivity].
  - destruct (String.eqb_spec k0 k) as [->|Hk]; cbn [getitem].
    + destruct (String.eqb_spec k k'); [contradiction | reflexivity].
    + destruct (String.eqb k0 k'); [reflexivity | exact IH].
Qed.

Lemma setitem_setitem_same {V : Type} (d : dict V) (k : string) (v v' : V) :
  setitem (setitem d k v) k v' = setitem d k v'.
Proof.
  induction d as [|[k0 v0] d IH]; cbn [setitem].
  - now rewrite String.eqb_refl.
  - destruct (String.eqb k0 k) eqn:Hk; cbn [setitem]; rewrite Hk;
      [reflexivity | now rewrite IH].
Qed.

(** One iteration never raises, and does the bookkeeping of [bump_type]. *)
Lemma validate_step_ok (r : Results.t) (scenario : Scenario.t) :
  validate_step (Ok r) scenario
  = Ok {| Results.total_scenarios := Results.total_scenarios r;
          Results.correct_predictions :=
            Results.correct_predictions r
            + (if is_correct scenario then 1 else 0);
          Results.accuracy_by_type :=
            bump_type (Results.accuracy_by_type r)
                      (Scenario.data_type scenario) (is_correct scenario);
          Results.detailed_results :=
            (Results.detailed_results r ++ [detail_of scenario])%list;
          Results.confidence_stats :=
            (Results.confidence_stats r ++ [confidence_for scenario])%list |}.
Proof.
  unfold validate_step, detail_of, bump_type, is_correct, confidence_for.
  cbn [bind].
  generalize (expected_of scenario) as expected.
  generalize (predict_with_model (Scenario.business_idea scenario)) as p.
  intros p expected.
  generalize (String.eqb (prediction p) expected) as b. intros b.
  destruct (getitem (Results.accuracy_by_type r)
                    (Scenario.data_type scenario)) as [st|e] eqn:Hget.
  - rewrite Hget. cbn [bind].
    destruct b; cbn [bind].
    + rewrite getitem_setitem_same.
      cbn [bind TypeStats.correct TypeStats.total].
      rewrite setitem_setitem_same. reflexivity.
    + rewrite !Z.add_0_r. reflexivity.
  - rewrite getitem_setitem_same.
    cbn [bind TypeStats.correct TypeStats.total].
    rewrite setitem_setitem_same.
    destruct b; cbn [bind].
    + rewrite getitem_setitem_same.
      cbn [bind TypeStats.correct TypeStats.total].
      rewrite setitem_setitem_same. reflexivity.
    + rewrite !Z.add_0_r. reflexivity.
Qed.

Lemma validate_fold_ok (l : list Scenario.t) :
  forall r,
    fold_left validate_step l (Ok r)
    = Ok {| Results.total_scenarios := Results.total_scenarios r;
            Results.correct_predictions :=
              Results.correct_predictions r + count_if is_correct l;
            Results.accuracy_by_type :=
              bump_types (Results.accuracy_by_type r) l;
            Results.detailed_results :=
              (Results.detailed_results r ++ map detail_of l)%list;
            Results.confidence_stats :=
              (Results.confidence_stats r ++ map confidence_for l)%list |}.
Proof.
  induction l as [|sc l IH]; intros r.
  - cbn [fold_left map]. unfold count_if, bump_types. cbn [filter fold_left].
    rewrite !app_nil_r. change (Z.of_nat (List.length [])) with 0.
    rewrite Z.add_0_r. now destruct r.
  - cbn [fold_left]. rewrite validate_step_ok, IH.
    cbn [Results.total_scenarios Results.correct_predictions
         Results.accuracy_by_type Results.detailed_results
         Results.confidence_stats].
    unfold bump_types, count_if. cbn [fold_left map filter].
    rewrite <- !app_assoc. cbn [app].
    f_equal. f_equal.
    destruct (is_correct sc); cbn [List.length]; lia.
Qed.

Lemma count_if_cons {A : Type} (f : A -> bool) (x : A) (l : list A) :
  count_if f (x :: l) = (if f x then 1 else 0) + count_if f l.
Proof.
  unfold count_if. cbn [filter]. destruct (f x); cbn [List.length]; lia.
Qed.

Lemma count_if_bounds {A : Type} (f : A -> bool) (l : list A) :
  0 <= count_if f l <= Z.of_nat (List.length l).
Proof.
  unfold count_if. pose proof (filter_length_le f l). lia.
Qed.

Lemma count_if_le {A : Type} (f g : A -> bool) (l : list A) :
  (forall x, f x = true -> g x = true) -> count_if f l <= count_if g l.
Proof.
  intros Hfg. induction l as [|x l IH]; [reflexivity|].
  rewrite !count_if_cons. specialize (Hfg x).
  destruct (f x), (g x); try lia.
  all: discriminate (Hfg eq_refl).
Qed.

Lemma count_if_ext {A : Type} (f g : A -> bool) (l : list A) :
  (forall x, In x l -> f x = g x) -> count_if f l = count_if g l.
Proof.
  intros Hfg. induction l as [|x l IH]; [reflexivity|].
  rewrite !count_if_cons, (Hfg x (or_introl eq_refl)), IH; [reflexivity|].
  intros y Hy. apply Hfg. now right.
Qed.

Lemma count_if_exists {A : Type} (f : A -> bool) (l : list A) :
  existsb f l = true -> 1 <= count_if f l.
Proof.
  induction l as [|x l IH]; [discriminate|].
  rewrite count_if_cons. cbn [existsb].
  pose proof (count_if_bounds f l).
  destruct (f x); [lia|]. intros Hex. specialize (IH Hex). lia.
Qed.

Lemma bump_type_lookup (by_type : dict TypeStats.t) (d' d : string)
    (b : bool) :
  getitem (bump_type by_type d' b) d
  = if String.eqb d' d
    then Ok {| TypeStats.correct :=
                 TypeStats.correct (stats_or_zero by_type d')
                 + (if b then 1 else 0);
               TypeStats.total :=
                 TypeStats.total (stats_or_zero by_type d') + 1 |}
    else getitem by_type d.
Proof.
  unfold bump_type, stats_or_zero.
  destruct (String.eqb_spec d' d) as [->|Hne].
  - apply getitem_setitem_same.
  - now apply getitem_setitem_other.
Qed.

(** After the loop, a data type has an entry exactly when it had one before
    or some scenario has that type, and the entry has grown by the number of
    scenarios of the type and by the number of correct ones among them. *)
Lemma bump_types_lookup (l : list Scenario.t) :
  forall by_type d,
    (has_key by_type d || existsb (of_type d) l = true ->
     exists stats,
       getitem (bump_types by_type l) d = Ok stats
       /\ TypeStats.correct stats
          = TypeStats.correct (stats_or_zero by_type d)
            + count_if (fun sc => of_type d sc && is_correct sc) l
       /\ TypeStats.total stats
          = TypeStats.total (stats_or_zero by_type d)
            + count_if (of_type d) l)
    /\ (has_key by_type d || existsb (of_type d) l = false ->
        getitem (bump_types by_type l) d = Raise (KeyError d)).
Proof.
  induction l as [|sc l IH]; intros by_type d.
  - unfold bump_types, has_key, stats_or_zero, count_if.
    cbn [fold_left existsb filter List.length]. rewrite orb_false_r.
    destruct (getitem by_type d) as [st|e] eqn:Hget; cbn [orb]; split;
      intros Hk; try discriminate Hk.
    + exists st. split; [reflexivity|]. split; lia.
    + now apply getitem_raise in Hget as ->.
  - unfold bump_types. cbn [fold_left]. fold (bump_types
      (bump_type by_type (Scenario.data_type sc) (is_correct sc)) l).
    specialize (IH (bump_type by_type (Scenario.data_type sc)
                              (is_correct sc)) d).
    pose proof (bump_type_lookup by_type (Scenario.data_type sc) d
                  (is_correct sc)) as Hlook.
    unfold has_key, stats_or_zero in IH. rewrite Hlook in IH.
    rewrite !count_if_cons. cbn [existsb]. cbn beta.
    change (of_type d sc) with (String.eqb (Scenario.data_type sc) d).
    destruct (String.eqb_spec (Scenario.data_type sc) d) as [Hd|Hd].
    + cbn [orb andb TypeStats.correct TypeStats.total] in IH |- *.
      rewrite orb_true_r. destruct IH as [IH _].
      split; [intros _ | intros Hk; discriminate Hk].
      destruct (IH eq_refl) as (st & Hst & Hc & Ht).
      exists st. split; [exact Hst|]. rewrite Hc, Ht, Hd. lia.
    + cbn [orb andb]. unfold has_key, stats_or_zero.
      rewrite !Z.add_0_l. exact IH.
Qed.


(** With at least one scenario the function never raises and returns the
    report [report_of]. *)
Lemma validate_closed (mock real : list Scenario.t) :
  (mock ++ real)%list <> [] ->
  validate_prediction_accuracy mock real
  = Ok (Some (report_of (mock ++ real))).
Proof.
  intros Hall. unfold validate_prediction_accuracy. cbv zeta.
  destruct (mock ++ real)%list as [|sc l] eqn:E; [now elim Hall|].
  rewrite validate_fold_ok.
  cbn [Results.total_scenarios Results.correct_predictions
       Results.accuracy_by_type Results.detailed_results
       Results.confidence_stats bind app].
  rewrite Z.add_0_l. unfold truediv.
  destruct (Z.eqb_spec (Z.of_nat (List.length (sc :: l))) 0) as [H0|_];
    [cbn [List.length] in H0; lia|].
  unfold report_of. generalize (sc :: l) as all. intros all. reflexivity.
Qed.




(** X11.  The per-type statistics of the report are exact: a data type has
    an entry exactly when some scenario has that type, and its entry holds
    the number of scenarios of the type and the number of correctly predicted
    ones among them, so its total is at least 1 and its correct count never
    exceeds its total. *)
Theorem validation_by_type (mock real : list Scenario.t) (d : string) :
  (mock ++ real)%list <> [] ->
  exists report,
    validate_prediction_accuracy mock real = Ok (Some report)
    /\ (existsb (of_type d) (mock ++ real) = true ->
        exists stats,
          getitem (Results.accuracy_by_type (Report.results report)) d
          = Ok stats
          /\ TypeStats.total stats = count_if (of_type d) (mock ++ real)
          /\ TypeStats.correct stats
             = count_if (fun sc => of_type d sc && is_correct sc)
                        (mock ++ real)
          /\ 1 <= TypeStats.total stats
          /\ 0 <= TypeStats.correct stats <= TypeStats.total stats)
    /\ (existsb (of_type d) (mock ++ real) = false ->
        getitem (Results.accuracy_by_type (Report.results report)) d
        = Raise (KeyError d)).
Proof.
  intros Hall. exists (report_of (mock ++ real)).
  split; [now apply validate_closed|].
  cbn [report_of Report.results Results.accuracy_by_type].
  destruct (bump_types_lookup (mock ++ real) [] d) as [Hsome Hnone].
  cbn [has_key getitem orb stats_or_zero TypeStats.correct TypeStats.total]
    in Hsome, Hnone.
  split; [|exact Hnone].
  intros Hex. destruct (Hsome Hex) as (st & Hst & Hc & Ht).
  exists st. split; [exact Hst|].
  rewrite Hc, Ht, !Z.add_0_l. split; [reflexivity|]. split; [reflexivity|].
  pose proof (count_if_exists _ _ Hex).
  pose proof (count_if_bounds (fun sc => of_type d sc && is_correct sc)
                              (mock ++ real)).
  pose proof (count_if_le (fun sc => of_type d sc && is_correct sc)
                          (of_type d) (mock ++ real)) as Hle.
  split; [assumption|]. split; [lia|]. apply Hle.
  intros x Hx. now apply andb_true_iff in Hx as [Hx _].
Qed.

Lemma validation_by_type_witness :
  exists report stats,
    validate_prediction_accuracy
      [] [real_scenario "Solar jobs" "Low"; real_scenario "Audit" "High"]
    = Ok (Some report)
    /\ getitem (Results.accuracy_by_type (Report.results report)) "real_world"
       = Ok stats
    /\ TypeStats.total stats = 2.
Proof.
  destruct (validation_by_type
              [] [real_scenario "Solar jobs" "Low";
                  real_scenario "Audit" "High"] "real_world")
    as (report & Hr & Hsome & _); [discriminate|].
  destruct Hsome as (stats & Hst & Ht & _); [reflexivity|].
  exists report, stats. split; [exact Hr|]. split; [exact Hst|].
  rewrite Ht. reflexivity.
Defined.

(** What [predict_with_model] returns is internally consistent. *)
Lemma predict_consistent (text : string) :
  let r := predict_with_model text in
  prediction r = label_esg (total_score r)
  /\ total_score r
     = Environmental (esg_scores r) + Social (esg_scores r)
       + Governance (esg_scores r)
  /\ 0 <= total_score r <= Z.of_nat (String.length text)
  /\ ((total_score r = 0 /\ confidence r = (1 # 10)%Q)
      \/ (0 < total_score r /\ ((1 # 3) <= confidence r)%Q
          /\ (confidence r <= 1)%Q)).
Proof.
  destruct (predict_with_model_closed text)
    as (e & s & g & c & He & Hs & Hg & (He0 & Hs0 & Hg0) & Hc & ->).
  cbn [total_score prediction esg_scores Environmental Social Governance
       confidence].
  split; [apply rating_of_label_esg|]. split; [reflexivity|].
  split.
  - split; [lia|]. subst e s g. rewrite <- (lower_length text).
    apply total_le_length; [exact esg_keywords_prefix_free|].
    now eapply all_keywords_sum.
  - destruct (confidence_of_range e s g c He0 Hs0 Hg0 Hc)
      as [[-> H0]|(Ht & _ & Hlo & Hhi)]; [left | right]; auto.
Qed.

Lemma substring_prefix (n : nat) (s : string) :
  exists rest,
    s = substring 0 n s ++ rest
    /\ String.length (substring 0 n s) = Nat.min n (String.length s).
Proof.
  revert s. induction n as [|n IH]; intros s.
  - exists s. destruct s; split; reflexivity.
  - destruct s as [|c s]; [exists ""; split; reflexivity|].
    destruct (IH s) as (rest & Hs & Hlen). exists rest.
    cbn [substring append String.length Nat.min]. split.
    + now rewrite <- Hs.
    + now rewrite Hlen.
Qed.

Lemma Forall2_map_r {A B : Type} (P : A -> B -> Prop) (f : A -> B)
    (l : list A) :
  (forall x, In x l -> P x (f x)) -> Forall2 P l (map f l).
Proof.
  induction l as [|x l IH]; intros Hall; cbn [map]; constructor.
  - apply Hall. now left.
  - apply IH. intros y Hy. apply Hall. now right.
Qed.

(** X12.  The detailed results of the report pair up with the scenarios, in
    order, and each one holds exactly what the scenario and
    [predict_with_model] give: the scenario's id and data type; as business
    idea the first 100 characters of the scenario's text (the whole text when
    it is shorter) followed by three dots, hence at most 103 characters; the
    scenario's expected rating; the prediction, confidence, scores and total
    of [predict_with_model] on the full text; and a flag that is true exactly
    when predicted and expected rating are equal.  The predicted rating is
    [label_esg] of the stored total, which is the sum of the three stored
    scores. *)
Theorem validation_details (mock real : list Scenario.t) :
  (mock ++ real)%list <> [] ->
  exists report,
    validate_prediction_accuracy mock real = Ok (Some report)
    /\ Forall2
         (fun scenario d =>
            let text := Scenario.business_idea scenario in
            let r := predict_with_model text in
            Detailed.scenario_id d = Scenario.id scenario
            /\ Detailed.data_type d = Scenario.data_type scenario
            /\ (exists first rest,
                  text = first ++ rest
                  /\ String.length first = Nat.min 100 (String.length text)
                  /\ Detailed.business_idea d = first ++ "...")
            /\ (String.length (Detailed.business_idea d) <= 103)%nat
            /\ Detailed.expected d = expected_of scenario
            /\ Detailed.predicted d = prediction r
            /\ Detailed.confidence d = confidence r
            /\ Detailed.esg_scores d = esg_scores r
            /\ Detailed.total_score d = total_score r
            /\ Detailed.correct d
               = String.eqb (Detailed.predicted d) (Detailed.expected d)
            /\ Detailed.predicted d = label_esg (Detailed.total_score d)
            /\ Detailed.total_score d
               = Environmental (Detailed.esg_scores d)
                 + Social (Detailed.esg_scores d)
                 + Governance (Detailed.esg_scores d))
         (mock ++ real)
         (Results.detailed_results (Report.results report)).
Proof.
  intros Hall. exists (report_of (mock ++ real)).
  split; [now apply validate_closed|].
  cbn [report_of Report.results Results.detailed_results].
  apply Forall2_map_r. intros sc _. cbv zeta.
  destruct (predict_consistent (Scenario.business_idea sc))
    as (Hp & Ht & _ & _).
  destruct (substring_prefix 100 (Scenario.business_idea sc))
    as (rest & Hsplit & Hlen).
  unfold detail_of, is_correct, slice_to.
  cbn [Detailed.scenario_id Detailed.data_type Detailed.business_idea
       Detailed.correct Detailed.predicted Detailed.expected
       Detailed.confidence Detailed.total_score Detailed.esg_scores].
  split; [reflexivity|]. split; [reflexivity|].
  split; [exists (substring 0 100 (Scenario.business_idea sc)), rest; auto|].
  split.
  { rewrite string_app_length, Hlen. cbn [String.length]. lia. }
  do 6 (split; [reflexivity|]). split; [exact Hp | exact Ht].
Qed.

Lemma validation_details_witness :
  exists report d,
    validate_prediction_accuracy [] [real_scenario "Solar jobs" "Low"]
    = Ok (Some report)
    /\ Results.detailed_results (Report.results report) = [d]
    /\ Detailed.business_idea d = "Solar jobs...".
Proof.
  destruct (validation_details [] [real_scenario "Solar jobs" "Low"])
    as (report & Hr & Hall); [discriminate|].
  cbn [app] in Hall.
  inversion Hall as [|sc d l l' Hd Hrest Hsc Hdet]; subst.
  inversion Hrest; subst.
  exists report, d. split; [exact Hr|]. split; [now symmetry|].
  destruct Hd as (_ & _ & (first & rest & Htext & Hlen & Hidea) & _).
  rewrite Hidea. cbn in Htext, Hlen.
  assert (rest = "" /\ first = "Solar jobs") as [_ ->]; [|reflexivity].
  clear - Htext Hlen.
  do 10 (destruct first as [|? first]; [discriminate|];
         injection Htext as <- Htext; cbn in Hlen).
  destruct first; [|discriminate]. now split.
Defined.

Lemma count_if_all {A : Type} (f : A -> bool) (l : list A) :
  (forall x, In x l -> f x = true) ->
  count_if f l = Z.of_nat (List.length l).
Proof.
  intros Hall. induction l as [|x l IH]; [reflexivity|].
  rewrite count_if_cons, (Hall x (or_introl eq_refl)), IH.
  - cbn [List.length]. lia.
  - intros y Hy. apply Hall. now right.
Qed.

Lemma is_correct_unbiased (scenario : Scenario.t) (bias : string)
    (profile : Profile.t) :
  special_bias bias = false ->
  calculate_expected_esg_profile (Scenario.business_idea scenario) bias
  = Ok profile ->
  Scenario.expected_profile scenario = Some profile ->
  is_correct scenario = true.
Proof.
  intros Hbias Hcalc Hexp. unfold special_bias in Hbias.
  apply orb_false_iff in Hbias as [Hbias H4].
  apply orb_false_iff in Hbias as [Hbias H3].
  apply orb_false_iff in Hbias as [H1 H2].
  destruct (profile_closed (Scenario.business_idea scenario) bias)
    as (_ & _ & Hr & Hclosed).
  rewrite Hclosed, H1, H2, H3, H4 in Hcalc. injection Hcalc as <-.
  unfold is_correct, expected_of. rewrite Hexp, Hr.
  cbn [profile_of Profile.expected_rating]. apply String.eqb_refl.
Qed.

(** X13.  A mock scenario whose expected profile was computed by
    [_calculate_expected_esg_profile] with a bias that is not one of the four
    special ones is always counted as correct, since prediction and
    expectation are computed the same way: a validation run over such
    scenarios alone reports every prediction correct and accuracy 1. *)
Theorem unbiased_scenarios_always_correct (mock real : list Scenario.t) :
  (mock ++ real)%list <> [] ->
  (forall scenario, In scenario (mock ++ real) ->
     exists bias profile,
       special_bias bias = false
       /\ calculate_expected_esg_profile
            (Scenario.business_idea scenario) bias = Ok profile
       /\ Scenario.expected_profile scenario = Some profile) ->
  exists report,
    validate_prediction_accuracy mock real = Ok (Some report)
    /\ Results.correct_predictions (Report.results report)
       = Results.total_scenarios (Report.results report)
    /\ (Report.overall_accuracy report == 1)%Q.
Proof.
  intros Hall Hunb. exists (report_of (mock ++ real)).
  split; [now apply validate_closed|].
  assert (Hc : count_if is_correct (mock ++ real)
               = Z.of_nat (List.length (mock ++ real))).
  { apply count_if_all. intros sc Hsc.
    destruct (Hunb sc Hsc) as (bias & profile & Hb & Hcalc & Hexp).
    exact (is_correct_unbiased sc bias profile Hb Hcalc Hexp). }
  cbn [report_of Report.results Report.overall_accuracy
       Results.correct_predictions Results.total_scenarios].
  split; [exact Hc|]. rewrite Hc.
  apply Qmult_inv_r. unfold Qeq; cbn [inject_Z Qnum Qden].
  destruct (mock ++ real)%list; [now elim Hall | cbn [List.length]; lia].
Qed.

Lemma unbiased_scenarios_always_correct_witness :
  exists report,
    validate_prediction_accuracy
      [mock_scenario "Solar jobs" "balanced" (profile_of 1 1 0)] []
    = Ok (Some report)
    /\ Results.correct_predictions (Report.results report)
       = Results.total_scenarios (Report.results report).
Proof.
  destruct (unbiased_scenarios_always_correct
              [mock_scenario "Solar jobs" "balanced" (profile_of 1 1 0)] [])
    as (report & Hr & Hc & _).
  - discriminate.
  - intros sc [<-|[]]. exists "balanced", (profile_of 1 1 0).
    repeat split; vm_compute; reflexivity.
  - exists report. split; [exact Hr | exact Hc].
Defined.

Lemma is_correct_short (scenario : Scenario.t) :
  (String.length (Scenario.business_idea scenario) < 200)%nat ->
  is_correct scenario = String.eqb "Low" (expected_of scenario).
Proof.
  intros Hshort. unfold is_correct.
  destruct (predict_consistent (Scenario.business_idea scenario))
    as (Hp & _ & Hlen & _).
  rewrite Hp.
  destruct (label_esg_cases
              (total_score
                 (predict_with_model (Scenario.business_idea scenario))))
    as [[_ ->]|[[Hr _]|[Hr _]]]; [reflexivity | lia | lia].
Qed.

Lemma is_correct_not_high (scenario : Scenario.t) :
  (String.length (Scenario.business_idea scenario) < 600)%nat ->
  expected_of scenario = "High" ->
  is_correct scenario = false.
Proof.
  intros Hshort Hexp. unfold is_correct. rewrite Hexp.
  destruct (predict_consistent (Scenario.business_idea scenario))
    as (Hp & _ & Hlen & _).
  rewrite Hp.
  destruct (label_esg_cases
              (total_score
                 (predict_with_model (Scenario.business_idea scenario))))
    as [[_ ->]|[[_ ->]|[Hr _]]]; [reflexivity | reflexivity | lia].
Qed.

Lemma count_if_none {A : Type} (f : A -> bool) (l : list A) :
  (forall x, In x l -> f x = false) -> count_if f l = 0.
Proof.
  intros Hnone. induction l as [|x l IH]; [reflexivity|].
  rewrite count_if_cons, (Hnone x (or_introl eq_refl)), IH; [reflexivity|].
  intros y Hy. apply Hnone. now right.
Qed.

(** X14.  Text length decides short scenarios.  When every business idea has
    fewer than 200 characters, the correct predictions are exactly the
    scenarios that expect Low; and when every business idea has fewer than
    600 characters and expects High, no prediction is correct and the
    accuracy is 0. *)
Theorem short_scenarios_accuracy (mock real : list Scenario.t) :
  (mock ++ real)%list <> [] ->
  exists report,
    validate_prediction_accuracy mock real = Ok (Some report)
    /\ ((forall scenario, In scenario (mock ++ real) ->
           (String.length (Scenario.business_idea scenario) < 200)%nat) ->
        Results.correct_predictions (Report.results report)
        = count_if (fun scenario => String.eqb "Low" (expected_of scenario))
                   (mock ++ real))
    /\ ((forall scenario, In scenario (mock ++ real) ->
           (String.length (Scenario.business_idea scenario) < 600)%nat
           /\ expected_of scenario = "High") ->
        Results.correct_predictions (Report.results report) = 0
        /\ (Report.overall_accuracy report == 0)%Q).
Proof.
  intros Hall. exists (report_of (mock ++ real)).
  split; [now apply validate_closed|].
  cbn [report_of Report.results Report.overall_accuracy
       Results.correct_predictions].
  split.
  - intros Hshort. apply count_if_ext. intros sc Hsc.
    apply is_correct_short, Hshort, Hsc.
  - intros Hhigh.
    assert (Hc : count_if is_correct (mock ++ real) = 0).
    { apply count_if_none. intros sc Hsc.
      destruct (Hhigh sc Hsc) as [Hlen Hexp].
      now apply is_correct_not_high. }
    split; [exact Hc|]. rewrite Hc. reflexivity.
Qed.

Lemma short_scenarios_accuracy_witness :
  exists report,
    validate_prediction_accuracy
      [] [real_scenario "Solar jobs" "High"; real_scenario "Audit" "High"]
    = Ok (Some report)
    /\ Results.correct_predictions (Report.results report) = 0.
Proof.
  destruct (short_scenarios_accuracy
              [] [real_scenario "Solar jobs" "High";
                  real_scenario "Audit" "High"])
    as (report & Hr & _ & Hhigh); [discriminate|].
  exists report. split; [exact Hr|]. apply Hhigh.
  intros sc [<-|[<-|[]]]; split; solve [simpl; lia | reflexivity].
Defined.

Lemma sum_ones {A : Type} (l : list A) :
  sum (map (fun _ => 1) l) = Z.of_nat (List.length l).
Proof.
  induction l as [|x l IH]; [reflexivity|].
  cbn [map]. rewrite sum_cons, IH. cbn [List.length]. lia.
Qed.

Lemma confidence_below_030 (text : string) :
  negb (Qle_bool (3 # 10) (confidence (predict_with_model text)))
  = (total_score (predict_with_model text) =? 0).
Proof.
  destruct (predict_consistent text)
    as (_ & _ & _ & [[-> ->]|(Hpos & Hlo & _)]); [reflexivity|].
  destruct (Z.eqb_spec (total_score (predict_with_model text)) 0); [lia|].
  apply negb_false_iff, Qle_bool_iff.
  apply Qle_trans with (1 # 3)%Q; [discriminate | exact Hlo].
Qed.

(** X15.  The confidence analysis of the validation report puts every
    confidence in exactly one of its three buckets (above 0.7, 0.3 to 0.7,
    below 0.3), so the three counts add up to the number of scenarios; and
    the bucket below 0.3 holds exactly the scenarios in whose text
    [predict_with_model] finds no keyword at all. *)
Theorem confidence_buckets (mock real : list Scenario.t) :
  (mock ++ real)%list <> [] ->
  exists report high medium low,
    validate_prediction_accuracy mock real = Ok (Some report)
    /\ confidence_analysis (Results.confidence_stats (Report.results report))
       = (high, medium, low)
    /\ high + medium + low = Results.total_scenarios (Report.results report)
    /\ low
       = count_if
           (fun scenario =>
              total_score
                (predict_with_model (Scenario.business_idea scenario)) =? 0)
           (mock ++ real).
Proof.
  intros Hall. exists (report_of (mock ++ real)). eexists _, _, _.
  split; [now apply validate_closed|].
  cbn [report_of Report.results Results.confidence_stats
       Results.total_scenarios].
  split; [reflexivity|].
  rewrite !sum_ones. generalize (mock ++ real)%list as l. clear.
  intros l. split.
  - rewrite <- (length_map confidence_for l).
    induction (map confidence_for l) as [|c cs IH]; [reflexivity|].
    cbn [filter List.length].
    destruct (Qle_bool c (7 # 10)) eqn:H7, (Qle_bool (3 # 10) c) eqn:H3;
      cbn [negb andb List.length]; try lia.
    exfalso.
    assert (Hlt7 : ~ (c <= 7 # 10)%Q)
      by (intros Hle; apply Qle_bool_iff in Hle; congruence).
    assert (Hlt3 : ~ ((3 # 10) <= c)%Q)
      by (intros Hle; apply Qle_bool_iff in Hle; congruence).
    apply Qnot_le_lt in Hlt7, Hlt3.
    apply (Qlt_irrefl c).
    apply Qlt_trans with (3 # 10)%Q; [exact Hlt3|].
    apply Qlt_trans with (7 # 10)%Q; [reflexivity | exact Hlt7].
  - unfold count_if. f_equal.
    induction l as [|sc l IH]; [reflexivity|].
    cbn [map filter]. unfold confidence_for at 1.
    rewrite confidence_below_030.
    destruct (total_score (predict_with_model (Scenario.business_idea sc))
              =? 0); cbn [List.length]; now rewrite IH.
Qed.

Lemma confidence_buckets_witness :
  exists report high medium low,
    validate_prediction_accuracy
      [] [real_scenario "Solar jobs" "Low"; real_scenario "Profit" "Low"]
    = Ok (Some report)
    /\ confidence_analysis (Results.confidence_stats (Report.results report))
       = (high, medium, low)
    /\ low = 1.
Proof.
  destruct (confidence_buckets
              [] [real_scenario "Solar jobs" "Low";
                  real_scenario "Profit" "Low"])
    as (report & high & medium & low & Hr & Ha & _ & Hlow); [discriminate|].
  exists report, high, medium, low.
  split; [exact Hr|]. split; [exact Ha|]. rewrite Hlow.
  vm_compute. reflexivity.
Defined.

Lemma wrap64_int64 (z : Z) : int64 z -> wrap64 z = z.
Proof.
  unfold int64, wrap64. change (2 ^ 64) with (2 * 2 ^ 63).
  assert (HM : 0 < 2 ^ 63) by reflexivity.
  generalize dependent (2 ^ 63). intros M HM Hz.
  rewrite Z.mod_small by lia. lia.
Qed.

(** X16.  [label.py] needs the three score columns of a row and nothing
    else: a row without one of them raises [KeyError] for the first missing
    column in the order env_score, soc_score, gov_score; a row that has the
    three as int64 values whose sums env + soc and env + soc + gov stay in
    the int64 range gets the label of their exact sum, whatever other
    columns (source, document) it carries.  Outside that range the int64
    additions wrap: the row 9223372036854775807, 1, 0 is labelled Low. *)
Theorem label_needs_three_columns (row : dict Z) :
  (forall e, getitem row "env_score" = Raise e ->
     sustainability_label_int64 row = Raise (KeyError "env_score"))
  /\ (forall env e,
        getitem row "env_score" = Ok env ->
        getitem row "soc_score" = Raise e ->
        sustainability_label_int64 row = Raise (KeyError "soc_score"))
  /\ (forall env soc e,
        getitem row "env_score" = Ok env ->
        getitem row "soc_score" = Ok soc ->
        getitem row "gov_score" = Raise e ->
        sustainability_label_int64 row = Raise (KeyError "gov_score"))
  /\ (forall env soc gov,
        getitem row "env_score" = Ok env ->
        getitem row "soc_score" = Ok soc ->
        getitem row "gov_score" = Ok gov ->
        int64 env -> int64 soc -> int64 gov ->
        int64 (env + soc) -> int64 (env + soc + gov) ->
        total_esg_int64 row = Ok (env + soc + gov)
        /\ total_esg row = Ok (env + soc + gov)
        /\ sustainability_label_int64 row = Ok (label_esg (env + soc + gov))
        /\ forall column value,
             column <> "env_score" -> column <> "soc_score" ->
             column <> "gov_score" ->
             sustainability_label_int64 (setitem row column value)
             = Ok (label_esg (env + soc + gov)))
  /\ (total_esg_int64
        [("env_score", 9223372036854775807); ("soc_score", 1);
         ("gov_score", 0)]
      = Ok (-9223372036854775808)
      /\ sustainability_label_int64
           [("env_score", 9223372036854775807); ("soc_score", 1);
            ("gov_score", 0)]
         = Ok "Low").
Proof.
  unfold sustainability_label_int64, total_esg_int64, total_esg.
  split; [intros e He; apply getitem_raise in He as Hk; rewrite He, Hk;
          reflexivity|].
  split; [intros env e He Hs; apply getitem_raise in Hs as Hk;
          rewrite He, Hs, Hk; reflexivity|].
  split; [intros env soc e He Hs Hg; apply getitem_raise in Hg as Hk;
          rewrite He, Hs, Hg, Hk; reflexivity|].
  split; [|split; vm_compute; reflexivity].
  intros env soc gov He Hs Hg _ _ _ Hes Hesg.
  assert (Hw : wrap64 (wrap64 (env + soc) + gov) = env + soc + gov)
    by (rewrite (wrap64_int64 _ Hes); now apply wrap64_int64).
  split; [|split; [|split]].
  - rewrite He, Hs, Hg. cbn [bind]. now rewrite Hw.
  - rewrite He, Hs, Hg. reflexivity.
  - rewrite He, Hs, Hg. cbn [bind]. now rewrite Hw.
  - intros column value H1 H2 H3.
    rewrite !getitem_setitem_other by assumption.
    rewrite He, Hs, Hg. cbn [bind]. now rewrite Hw.
Qed.

Lemma label_needs_three_columns_witness :
  sustainability_label_int64 [("env_score", 250); ("gov_score", 3)]
  = Raise (KeyError "soc_score")
  /\ sustainability_label_int64
       (setitem [("env_score", 250); ("soc_score", 1); ("gov_score", 3)]
                "total" 7)
     = Ok "Medium".
Proof.
  split.
  - destruct (label_needs_three_columns [("env_score", 250); ("gov_score", 3)])
      as (_ & Hsoc & _).
    apply (Hsoc 250 (KeyError "soc_score")); reflexivity.
  - destruct (label_needs_three_columns
                [("env_score", 250); ("soc_score", 1); ("gov_score", 3)])
      as (_ & _ & _ & Hall & _).
    destruct (Hall 250 1 3) as (_ & _ & _ & Hextra);
      [reflexivity | reflexivity | reflexivity
      | unfold int64; lia | unfold int64; lia | unfold int64; lia
      | unfold int64; lia | unfold int64; lia |].
    apply Hextra; discriminate.
Defined.

(** * The confidence in binary64 *)

(** ** Rounding to nearest *)

Lemma rne_spec (a b : Z) :
  0 <= a -> 0 < b ->
  0 <= Binary64.rne a b
  /\ 2 * (a - Binary64.rne a b * b) <= b
  /\ 2 * (Binary64.rne a b * b - a) <= b
  /\ (2 * (a - Binary64.rne a b * b) = b -> Z.even (Binary64.rne a b) = true)
  /\ (2 * (Binary64.rne a b * b - a) = b -> Z.even (Binary64.rne a b) = true).
Proof.
  intros Ha Hb. unfold Binary64.rne.
  pose proof (Z.div_mod a b ltac:(lia)) as Hdm.
  pose proof (Z.mod_pos_bound a b Hb) as Hr.
  pose proof (Z.div_pos a b Ha Hb) as Hq.
  set (q := a / b) in *. set (r := a mod b) in *.
  assert (Ha' : a = q * b + r) by lia. clearbody q r. subst a.
  destruct (Z.ltb_spec (2 * r) b) as [H1|H1].
  - repeat split; try lia.
  - destruct (Z.ltb_spec b (2 * r)) as [H2|H2].
    + repeat split; try lia.
    + assert (Htie : 2 * r = b) by lia.
      destruct (Z.even q) eqn:Hev.
      * repeat split; try lia. intros _. exact Hev.
      * repeat split; try lia.
        intros _. rewrite Z.even_add, Hev. reflexivity.
Qed.

Lemma rne_exact (n b : Z) : 0 < b -> Binary64.rne (n * b) b = n.
Proof.
  intros Hb. unfold Binary64.rne.
  rewrite Z.div_mul, Z.mod_mul by lia.
  destruct (Z.ltb_spec (2 * 0) b); [reflexivity | lia].
Qed.

(** Rounding to the nearest integer keeps the order of the quotients: two
    quotients that round across each other would both be exact halves
    between the same two integers, and only one of these is even. *)
Lemma rne_mono (a b c d : Z) :
  0 <= a -> 0 < b -> 0 <= c -> 0 < d ->
  a * d <= c * b -> Binary64.rne a b <= Binary64.rne c d.
Proof.
  intros Ha Hb Hc Hd Hle.
  destruct (rne_spec a b Ha Hb) as (_ & _ & Hup & _ & Hev).
  destruct (rne_spec c d Hc Hd) as (_ & Hdn & _ & Hev' & _).
  set (n := Binary64.rne a b) in *. set (n' := Binary64.rne c d) in *.
  clearbody n n'.
  destruct (Z.le_gt_cases n n') as [|Hgt]; [assumption|exfalso].
  assert (H1 : (2 * n - 1) * b <= 2 * a) by lia.
  assert (H2 : 2 * c <= (2 * n' + 1) * d) by lia.
  assert (H3 : (2 * n - 1) * (b * d) <= 2 * (a * d)) by nia.
  assert (H4 : 2 * (c * b) <= (2 * n' + 1) * (b * d)) by nia.
  assert (Hbd : 0 < b * d) by nia.
  assert (H5 : (2 * n - 1) * (b * d) <= (2 * n' + 1) * (b * d)) by lia.
  assert (H6 : 2 * n - 1 <= 2 * n' + 1) by nia.
  assert (Hn : n = n' + 1) by lia. subst n.
  assert (E1 : (2 * (n' + 1) - 1) * (b * d) = 2 * (a * d)) by lia.
  assert (E2 : 2 * (c * b) = (2 * n' + 1) * (b * d)) by lia.
  assert (T1 : 2 * ((n' + 1) * b - a) = b) by nia.
  assert (T2 : 2 * (c - n' * d) = d) by nia.
  specialize (Hev T1). specialize (Hev' T2).
  rewrite Z.even_add, Hev' in Hev. discriminate.
Qed.

Lemma div_mono_cross (a b c d : Z) :
  0 <= a -> 0 < b -> 0 < d -> a * d <= c * b -> a / b <= c / d.
Proof.
  intros Ha Hb Hd Hle.
  apply Z.div_le_lower_bound; [exact Hd|].
  pose proof (Z.mul_div_le a b Hb). nia.
Qed.

Lemma div_lt_bound (a b m : Z) :
  0 <= a -> 0 < b -> a / b < m -> a < b * m.
Proof.
  intros Ha Hb Hlt.
  pose proof (Z.div_mod a b ltac:(lia)).
  pose proof (Z.mod_pos_bound a b Hb). nia.
Qed.

(** Rounding to binary64 keeps the order of the quotients.  On a common
    grid this is [rne_mono]; across grids the smaller quotient rounds to at
    most the power of two that ends its binade and the larger one to at
    least the power of two that starts its own. *)
Lemma round_scaled_mono (a b c d : Z) :
  0 <= a -> 0 < b -> 0 <= c -> 0 < d ->
  a * d <= c * b -> Binary64.round_scaled a b <= Binary64.round_scaled c d.
Proof.
  intros Ha Hb Hc Hd Hle. unfold Binary64.round_scaled.
  assert (HK : 0 < Binary64.scale)
    by (unfold Binary64.scale; apply Z.pow_pos_nonneg; lia).
  generalize dependent Binary64.scale. intros K HK.
  set (A := a * K). set (C := c * K).
  assert (HA : 0 <= A) by (subst A; nia).
  assert (HC : 0 <= C) by (subst C; nia).
  assert (HAC : A * d <= C * b) by (subst A C; nia).
  clearbody A C.
  pose proof (div_mono_cross A b C d HA Hb Hd HAC) as Hdiv.
  pose proof (Z.div_pos A b HA Hb) as HfA.
  pose proof (Z.div_pos C d HC Hd) as HfC.
  pose proof (Z.log2_le_mono _ _ Hdiv) as Hlog.
  set (ta := Z.max (Z.log2 (A / b) - 52) 0).
  set (tc := Z.max (Z.log2 (C / d) - 52) 0).
  assert (Hta : 0 <= ta) by (subst ta; lia).
  assert (Htc : 0 <= tc) by (subst tc; lia).
  assert (Htt : ta <= tc) by (subst ta tc; lia).
  assert (Hpa : 0 < 2 ^ ta) by (apply Z.pow_pos_nonneg; lia).
  assert (Hpc : 0 < 2 ^ tc) by (apply Z.pow_pos_nonneg; lia).
  destruct (Z.eq_dec ta tc) as [Heq|Hne].
  - rewrite <- Heq.
    apply Z.mul_le_mono_nonneg_r; [lia|].
    apply rne_mono; try nia.
  - assert (Hlt : ta + 1 <= tc) by lia.
    assert (Htc' : tc = Z.log2 (C / d) - 52) by (subst tc; lia).
    assert (HfCpos : 0 < C / d).
    { destruct (Z.eq_dec (C / d) 0) as [E|]; [|lia].
      rewrite E in Htc'. cbn in Htc'. lia. }
    pose proof (Z.log2_spec (C / d) HfCpos) as [Hlo _].
    replace (Z.log2 (C / d)) with (tc + 52) in Hlo by lia.
    rewrite Z.pow_add_r in Hlo by lia.
    pose proof (Z.mul_div_le C d Hd) as HCd.
    assert (Hbig : 2 ^ 52 * (d * 2 ^ tc) <= C) by nia.
    assert (HNc : 2 ^ 52 <= Binary64.rne C (d * 2 ^ tc)).
    { apply Z.le_trans
        with (Binary64.rne (2 ^ 52 * (d * 2 ^ tc)) (d * 2 ^ tc)).
      - rewrite rne_exact by nia. lia.
      - apply rne_mono; nia. }
    assert (Hsmall : A < b * 2 ^ (ta + 53)).
    { apply div_lt_bound; try assumption.
      destruct (Z.eq_dec (A / b) 0) as [E|Hnz].
      - rewrite E. apply Z.pow_pos_nonneg; lia.
      - pose proof (Z.log2_spec (A / b) ltac:(lia)) as [_ Hhi].
        eapply Z.lt_le_trans; [exact Hhi|].
        apply Z.pow_le_mono_r; [lia|]. subst ta. lia. }
    rewrite Z.pow_add_r in Hsmall by lia.
    assert (HNa : Binary64.rne A (b * 2 ^ ta) <= 2 ^ 53).
    { apply Z.le_trans
        with (Binary64.rne (2 ^ 53 * (b * 2 ^ ta)) (b * 2 ^ ta)).
      - apply rne_mono; nia.
      - rewrite rne_exact by nia. lia. }
    assert (Hpow : 2 ^ 53 * 2 ^ ta <= 2 ^ 52 * 2 ^ tc).
    { replace (2 ^ 53) with (2 ^ 52 * 2 ^ 1) by reflexivity.
      rewrite <- Z.mul_assoc, <- (Z.pow_add_r 2 1 ta) by lia.
      apply Z.mul_le_mono_nonneg_l; [lia|].
      apply Z.pow_le_mono_r; lia. }
    nia.
Qed.

(** ** The anchors 1/10, 1/3 and 1 *)

Lemma round_scaled_one : Binary64.round_scaled 1 1 = Binary64.scale.
Proof. vm_compute. reflexivity. Qed.

Lemma round_scaled_third :
  (Binary64.round_scaled 1 3 # Binary64.scale_pos == Binary64.third)%Q.
Proof. vm_compute. reflexivity. Qed.

Lemma literal_tenth : (Binary64.literal (1 # 10) == Binary64.tenth)%Q.
Proof. vm_compute. reflexivity. Qed.

Lemma scale_pos_scale : Z.pos Binary64.scale_pos = Binary64.scale.
Proof. vm_compute. reflexivity. Qed.

Lemma scale_below_overflow : Binary64.scale < 2 ^ (1024 + 1074).
Proof. vm_compute. reflexivity. Qed.

Lemma anchors_order :
  ((1 # 10) < Binary64.tenth /\ Binary64.tenth < Binary64.third
   /\ Binary64.third < (1 # 3))%Q.
Proof. repeat split. Qed.

Lemma Qmake_le (a b : Z) (p : positive) : a <= b -> (a # p <= b # p)%Q.
Proof. intros Hab. unfold Qle. cbn [Qnum Qden]. nia. Qed.

(** ** The rounded ratio *)

Lemma binary64_truediv_bounds (m t : Z) :
  0 < m -> m <= t -> t <= 3 * m ->
  exists q,
    Binary64.truediv m t = Ok q
    /\ (Binary64.third <= q)%Q /\ (q <= 1)%Q.
Proof.
  intros Hm Hmt Htm. unfold Binary64.truediv.
  destruct (Z.eqb_spec t 0) as [|_]; [lia|].
  rewrite (Z.abs_eq m), (Z.abs_eq t), (Z.sgn_pos m), (Z.sgn_pos t) by lia.
  rewrite !Z.mul_1_l.
  assert (Hhi : Binary64.round_scaled m t <= Binary64.scale).
  { rewrite <- round_scaled_one. apply round_scaled_mono; lia. }
  assert (Hlo : Binary64.round_scaled 1 3 <= Binary64.round_scaled m t)
    by (apply round_scaled_mono; lia).
  pose proof scale_below_overflow as Hover.
  destruct (Z.leb_spec (2 ^ (1024 + 1074)) (Binary64.round_scaled m t))
    as [Hbig|_].
  { exfalso. revert Hover Hbig Hhi.
    generalize (2 ^ (1024 + 1074)), Binary64.scale,
               (Binary64.round_scaled m t).
    intros; lia. }
  eexists. split; [reflexivity|]. split.
  - rewrite <- round_scaled_third. now apply Qmake_le.
  - apply Qle_trans with (Binary64.scale # Binary64.scale_pos)%Q.
    + now apply Qmake_le.
    + rewrite <- scale_pos_scale. unfold Qle. cbn [Qnum Qden]. lia.
Qed.

Lemma binary64_confidence_cases (e s g : Z) :
  0 <= e -> 0 <= s -> 0 <= g ->
  (e + s + g = 0
   /\ Binary64.confidence_of [e; s; g] = Ok (Binary64.literal (1 # 10)))
  \/ (0 < e + s + g
      /\ exists q,
           Binary64.truediv (Z.max (Z.max e s) g) (e + s + g) = Ok q
           /\ (Binary64.third <= q)%Q /\ (q <= 1)%Q
           /\ Binary64.confidence_of [e; s; g] = Ok (min q 1)).
Proof.
  intros He Hs Hg. unfold Binary64.confidence_of, max, bind.
  cbn [fold_left]. rewrite sum3.
  destruct (0 <? Z.max (Z.max e s) g) eqn:Hm.
  - apply Z.ltb_lt in Hm. right. split; [lia|].
    destruct (binary64_truediv_bounds (Z.max (Z.max e s) g) (e + s + g))
      as (q & Hq & Hlo & Hhi); [lia..|].
    exists q. rewrite Hq. auto.
  - apply Z.ltb_ge in Hm. left. split; [lia | reflexivity].
Qed.

Lemma binary64_predict_confidence_of_features (KW : dict (list string))
    (text : string) (e s g : Z) :
  keyword_features KW (lower text)
  = [("environment_score", e); ("social_score", s); ("governance_score", g)] ->
  Binary64.predict_confidence_in KW text = Binary64.confidence_of [e; s; g].
Proof.
  intros Hfeat. unfold Binary64.predict_confidence_in. rewrite Hfeat.
  reflexivity.
Qed.

(** What [predict_with_model] computes as confidence, in binary64: the
    literal 0.1, or a value between the binary64 third and 1. *)
Lemma binary64_predict_confidence_cases (text : string) :
  exists c,
    Binary64.predict_confidence text = Ok c
    /\ (c = Binary64.literal (1 # 10)
        \/ ((Binary64.third <= c)%Q /\ (c <= 1)%Q)).
Proof.
  pose proof (sum_counts_nonneg (lower text)
                (keywords_of esg_keywords "environment")) as He.
  pose proof (sum_counts_nonneg (lower text)
                (keywords_of esg_keywords "social")) as Hs.
  pose proof (sum_counts_nonneg (lower text)
                (keywords_of esg_keywords "governance")) as Hg.
  unfold Binary64.predict_confidence.
  rewrite (binary64_predict_confidence_of_features _ _ _ _ _
             (keyword_features_closed (lower text))).
  destruct (binary64_confidence_cases _ _ _ He Hs Hg)
    as [[_ Hc]|(_ & q & _ & Hlo & Hhi & Hc)]; rewrite Hc.
  - eexists. split; [reflexivity|]. now left.
  - eexists. split; [reflexivity|]. right.
    assert (Hmin : (min q 1 == q)%Q) by (apply Q.min_l; exact Hhi).
    rewrite Hmin. now split.
Qed.

(** C9, as the code computes it.  For three non-negative counts with a
    positive total, the binary64 ratio of the largest count to the total is
    at least the binary64 nearest to 1/3 (which is slightly below 1/3) and at
    most 1 without any clamping; consequently no confidence that
    [predict_with_model] computes lies strictly between the float 0.1 and
    that nearest float to 1/3. *)
Theorem binary64_dominance (e s g : Z) :
  0 <= e -> 0 <= s -> 0 <= g -> 0 < e + s + g ->
  (exists m q,
     max [e; s; g] = Ok m
     /\ Binary64.truediv m (sum [e; s; g]) = Ok q
     /\ (Binary64.third <= q /\ q <= 1)%Q
     /\ (min q 1 == q)%Q
     /\ Binary64.confidence_of [e; s; g] = Ok (min q 1))
  /\ (exists q, Binary64.truediv 1 3 = Ok q /\ (q == Binary64.third)%Q)
  /\ ((1 # 10) < Binary64.third /\ Binary64.third < (1 # 3))%Q
  /\ (Binary64.literal (1 # 10) == Binary64.tenth)%Q
  /\ (forall text,
        exists c,
          Binary64.predict_confidence text = Ok c
          /\ ~ (Binary64.literal (1 # 10) < c /\ c < Binary64.third)%Q).
Proof.
  intros He Hs Hg Ht. split.
  - destruct (binary64_confidence_cases e s g He Hs Hg)
      as [[H0 _]|(_ & q & Hq & Hlo & Hhi & Hc)]; [lia|].
    eexists _, q. split; [reflexivity|]. rewrite sum3.
    split; [exact Hq|]. split; [now split|].
    split; [apply Q.min_l; exact Hhi | exact Hc].
  - split; [eexists; split; [vm_compute; reflexivity | vm_compute; reflexivity]|].
    split; [split; reflexivity|].
    split; [exact literal_tenth|].
    intros text.
    destruct (binary64_predict_confidence_cases text)
      as (c & Hc & [Heq|[Hlo _]]); exists c; (split; [exact Hc|]).
    + intros [Hgt _]. rewrite Heq in Hgt. now apply Qlt_irrefl in Hgt.
    + intros [_ Hlt]. apply Qlt_not_le in Hlt. now apply Hlt.
Qed.

Lemma binary64_dominance_witness :
  exists q,
    Binary64.truediv 1 (sum [1; 1; 1]) = Ok q /\ (Binary64.third <= q)%Q.
Proof.
  destruct (binary64_dominance 1 1 1)
    as [(m & q & Hm & Hq & [Hlo _] & _) _]; [lia | lia | lia | lia |].
  injection Hm as <-. exists q. split; [exact Hq | exact Hlo].
Defined.

(** The claim as the specification words it fails on the code: for the
    counts 1, 1, 1 of the text "solar jobs audit" the computed ratio is below
    1/3, and the confidence lies strictly between 1/10 and 1/3. *)
Lemma dominance_below_third_counterexample :
  exists m q c,
    max [1; 1; 1] = Ok m
    /\ Binary64.truediv m (sum [1; 1; 1]) = Ok q
    /\ ~ ((1 # 3) <= q)%Q
    /\ Binary64.predict_confidence "solar jobs audit" = Ok c
    /\ ((1 # 10) < c /\ c < (1 # 3))%Q.
Proof.
  eexists _, _, _. split; [reflexivity|].
  split; [vm_compute; reflexivity|].
  split; [intros Hle; vm_compute in Hle; now apply Hle|].
  split; [vm_compute; reflexivity|].
  split; vm_compute; reflexivity.
Qed.
